(** * Order, payment and provisioning workflow of the hosting platform

    A shallow embedding of the server actions in [lib/actions.ts]
    ([orderService], [updateServiceStatus], [handleAquaPanelLogin]), of the
    Stripe webhook route ([POST]) and of the Genkit flow
    [ai/flows/create-subdomain.ts] ([createSubdomain],
    [createSubdomainFlow]), together with the properties the specification
    states about them.

    The Firebase realtime database is modelled as a record holding the
    nodes these functions touch.  Nodes addressed by a path built from ids
    ([users/<uid>/services/<sid>], [pannelneed/<username>]) are finite maps;
    the collections that grow by [push] and are read back through a query
    ([invoices], [subdomains]) are association lists in the key order of the
    store, because the code picks [Object.keys(...)[0]] from a query result.
    The reads and writes of the store are modelled as reaching it; what the
    SDK refuses before it sends anything is modelled as the throw it is:
    [ref] on a path with a character it does not allow, and [set] on a value
    with an [undefined] property.  A child that was never written is an
    absent child.  The properties that follow an id into the store are
    stated for ids that are keys of the store.  What the code takes
    from its surroundings (push keys, clock, random bytes, the HTTP exchange
    with the provisioning API, Stripe's signature check) is an explicit
    argument of the embedded function.

    An id that holds a slash, or an empty one where the code has no guard,
    addresses another node than the child the maps of the model keep under
    the id; the model files what is written under the id all the same, and
    the properties about such writes are stated for ids that are keys.

    Further actions of [lib/actions.ts] are embedded with stores of their
    own: the subdomain form action ([handleSubdomainCreation]), the support
    tickets ([updateTicketStatus], [postReply], [clearAllTickets],
    [bulkAutoReply]) and the password reset ([handlePasswordResetRequest],
    [handlePasswordReset]). *)

From stdpp Require Import base tactics option list gmap strings pretty fin_maps.
From Stdlib Require Import ZArith Ascii String.

Local Open Scope string_scope.

(* ===================================================================== *)
(** ** JavaScript values *)
(* ===================================================================== *)

(** A string is the UTF-8 encoding of the JavaScript string; every
    character the workflow tests for is an ASCII character.

    [!s] is true for the empty string. *)
Definition truthy (s : string) : bool := negb (s =? "").

(** The UTF-16 code units a byte of the encoding stands for: one for an
    ASCII byte and for the first byte of a sequence of two or three bytes,
    two (a surrogate pair) for the first byte of a sequence of four, none
    for a continuation byte. *)
Definition code_units (c : ascii) : nat :=
  let n := nat_of_ascii c in
  if (n <? 128)%nat then 1%nat
  else if (n <? 192)%nat then 0%nat
  else if (n <? 240)%nat then 1%nat
  else 2%nat.

(** [s.length], which counts code units; zod's [min] and [max] compare
    it. *)
Fixpoint js_length (s : string) : nat :=
  match s with
  | EmptyString => 0%nat
  | String c s' => (code_units c + js_length s')%nat
  end.

(** [!s] for a value that may also be [undefined] or [null]. *)
Definition truthy_opt (o : option string) : bool :=
  match o with
  | Some s => truthy s
  | None => false
  end.

(** A call either returns or throws [new Error(message)]. *)
Inductive Outcome (A : Type) : Type :=
  | Returned (a : A)
  | Thrown (message : string).
Arguments Returned {A} a.
Arguments Thrown {A} message.

(* ===================================================================== *)
(** ** The checks of the database SDK *)
(* ===================================================================== *)

(** [ref(db, path)] throws for a path that is empty or holds one of
    [. # $ [ ]] or a control character (the SDK's [isValidPathString]).  A
    slash separates the segments of a path and is let through. *)
Definition invalid_path_char (c : ascii) : bool :=
  (nat_of_ascii c <? 32)%nat || (nat_of_ascii c =? 127)%nat
  || (c =? ".")%char || (c =? "#")%char || (c =? "$")%char
  || (c =? "[")%char || (c =? "]")%char.

Definition valid_path (path : string) : bool :=
  truthy path
  && forallb (λ c, negb (invalid_path_char c)) (list_ascii_of_string path).

(** A key of the store (the SDK's [isValidKey]): not empty, and neither a
    slash nor a character a path cannot hold. *)
Definition valid_key (key : string) : bool :=
  truthy key
  && forallb (λ c, negb (invalid_path_char c) && negb (c =? "/")%char)
             (list_ascii_of_string key).

(** The messages of the two errors of the SDK that the actions run into:
    [ref] on a path it refuses, and [set] on a value with an [undefined]
    property.  The wording is that of firebase/database from version 9 on;
    no property below depends on it. *)
Definition InvalidPath (path : string) : string :=
  let q := String (ascii_of_nat 34) EmptyString in
  "child failed: path argument was an invalid path = " +:+ q +:+ path +:+ q
  +:+ ". Paths must be non-empty strings and can't contain "
  +:+ q +:+ "." +:+ q +:+ ", " +:+ q +:+ "#" +:+ q +:+ ", " +:+ q +:+ "$" +:+ q
  +:+ ", " +:+ q +:+ "[" +:+ q +:+ ", or " +:+ q +:+ "]" +:+ q.

Definition ContainsUndefined (property : string) : string :=
  "set failed: value argument contains undefined in property '" +:+ property +:+ "'".

(* ===================================================================== *)
(** ** Data model *)
(* ===================================================================== *)

Inductive ServiceStatus : Type :=
  | Active | Suspended | Terminated | Banned | PendingActivation | Pending.

Inductive InvoiceStatus : Type := Paid | Unpaid.

(** Modelled from the spec: the [Plan] interface lives in
    [app/admin/plans/page], which is not among the sources.  The
    specification lists id, name, price, feature list and storage quota; the
    callers write [plan.id!], so the id is optional.  The price is a
    JavaScript number that the workflow only compares with [0] and copies. *)
Record Plan : Type := mkPlan {
  plan_id : option string;
  plan_name : string;
  plan_price : Z;
  plan_features : list string;
  plan_storage : option Z
}.

Record Cpanel : Type := mkCpanel {
  cp_username : string;
  cp_password : string;
  cp_token : string;
  cp_tokenExpires : Z
}.

(** The node [users/<uid>/services/<sid>].  [update] may create the node
    from a partial object, so every child can be absent. *)
Record Service : Type := mkService {
  svc_name : option string;
  svc_price : option Z;
  svc_features : option (list string);
  svc_storage : option Z;
  svc_id : option string;
  svc_planId : option string;
  svc_orderDate : option string;
  svc_status : option ServiceStatus;
  svc_subdomain : option string;
  svc_cpanel : option Cpanel
}.

Record User : Type := mkUser {
  user_email : option string;
  user_name : option string;
  user_services : gmap string Service
}.

Record CompanyDetails : Type := mkCompanyDetails {
  co_companyName : string;
  co_address : string;
  co_city : string;
  co_postalCode : string;
  co_country : string;
  co_taxId : option string
}.

Record UserDetails : Type := mkUserDetails {
  ud_email : option string;
  ud_name : string
}.

(** The node [invoices/<key>]: the [Invoice] interface without its [id],
    plus the denormalised details [orderService] adds. *)
Record Invoice : Type := mkInvoice {
  inv_userId : string;
  inv_serviceId : string;
  inv_serviceName : string;
  inv_amount : Z;
  inv_status : InvoiceStatus;
  inv_invoiceDate : string;
  inv_dueDate : string;
  inv_userEmail : option string;
  inv_companyDetails : option CompanyDetails;
  inv_userDetails : UserDetails
}.

(** The node [subdomains/<key>]. *)
Record Subdomain : Type := mkSubdomain {
  sub_userId : string;
  sub_subdomain : string;
  sub_createdAt : string;
  sub_status : string;
  sub_serviceId : option string
}.

(** The node [pannelneed/<username>]. *)
Record PanelCredential : Type := mkPanelCredential {
  pc_password : string;
  pc_access_token : string;
  pc_expires_at : Z;
  pc_userId : string;
  pc_serviceId : string
}.

Record Restrictions : Type := mkRestrictions {
  freeUserLimitEnabled : bool
}.

Record StripeSettings : Type := mkStripeSettings {
  secretKey : option string;
  webhookSecret : option string
}.

Record DomainSettings : Type := mkDomainSettings {
  domain : string
}.

Record DB : Type := mkDB {
  settings_restrictions : option Restrictions;
  settings_stripe : option StripeSettings;
  settings_domain : option DomainSettings;
  settings_invoice : option CompanyDetails;
  users : gmap string User;
  invoices : list (string * Invoice);
  subdomains : list (string * Subdomain);
  pannelneed : gmap string PanelCredential
}.

(* ===================================================================== *)
(** ** The store *)
(* ===================================================================== *)

Definition with_users (db : DB) (us : gmap string User) : DB :=
  mkDB (settings_restrictions db) (settings_stripe db) (settings_domain db)
       (settings_invoice db) us (invoices db) (subdomains db) (pannelneed db).

Definition with_invoices (db : DB) (ivs : list (string * Invoice)) : DB :=
  mkDB (settings_restrictions db) (settings_stripe db) (settings_domain db)
       (settings_invoice db) (users db) ivs (subdomains db) (pannelneed db).

Definition with_subdomains (db : DB) (ss : list (string * Subdomain)) : DB :=
  mkDB (settings_restrictions db) (settings_stripe db) (settings_domain db)
       (settings_invoice db) (users db) (invoices db) ss (pannelneed db).

Definition with_pannelneed (db : DB) (ps : gmap string PanelCredential) : DB :=
  mkDB (settings_restrictions db) (settings_stripe db) (settings_domain db)
       (settings_invoice db) (users db) (invoices db) (subdomains db) ps.

Definition no_user : User := mkUser None None ∅.

Definition no_service : Service :=
  mkService None None None None None None None None None None.

Definition absent {A : Type} (o : option A) : bool :=
  match o with
  | None => true
  | Some _ => false
  end.

(** A node all of whose children are absent does not exist in the store. *)
Definition null_service (s : Service) : bool :=
  absent (svc_status s) && absent (svc_subdomain s) && absent (svc_cpanel s)
  && absent (svc_id s) && absent (svc_planId s) && absent (svc_orderDate s)
  && absent (svc_name s) && absent (svc_price s) && absent (svc_features s)
  && absent (svc_storage s).

(** [get(ref(db, `users/${uid}/services`)).val()] *)
Definition get_services (db : DB) (uid : string) : gmap string Service :=
  match users db !! uid with
  | Some u => user_services u
  | None => ∅
  end.

(** [get(ref(db, `users/${uid}/services/${sid}`))]: [None] when the snapshot
    does not exist. *)
Definition get_service (db : DB) (uid sid : string) : option Service :=
  match get_services db uid !! sid with
  | Some s => if null_service s then None else Some s
  | None => None
  end.

(** [set(ref(db, `users/${uid}/services/${sid}`), s)] *)
Definition set_service (db : DB) (uid sid : string) (s : Service) : DB :=
  let u := default no_user (users db !! uid) in
  with_users db
    (<[uid := mkUser (user_email u) (user_name u) (<[sid := s]> (user_services u))]>
       (users db)).

(** [update(ref(db, `users/${uid}/services/${sid}`), {...})]: the children
    named in the object are overwritten by [f], the others are kept; a node
    that does not exist yet is created. *)
Definition update_service (db : DB) (uid sid : string) (f : Service → Service) : DB :=
  set_service db uid sid (f (default no_service (get_services db uid !! sid))).

(** Writing a key of a pushed collection: an existing child is replaced in
    place, a new one comes last (push keys grow with time). *)
Fixpoint kv_set {A : Type} (k : string) (v : A) (l : list (string * A)) : list (string * A) :=
  match l with
  | [] => [(k, v)]
  | (k', v') :: l' => if k' =? k then (k, v) :: l' else (k', v') :: kv_set k v l'
  end.

Fixpoint kv_get {A : Type} (k : string) (l : list (string * A)) : option A :=
  match l with
  | [] => None
  | (k', v') :: l' => if k' =? k then Some v' else kv_get k l'
  end.

(** [update(ref(db, `${collection}/${k}`), {...})] on a child that exists;
    the keys of a node are distinct, so one child is touched. *)
Definition kv_update {A : Type} (k : string) (f : A → A) (l : list (string * A)) : list (string * A) :=
  List.map (λ kv, if kv.1 =? k then (kv.1, f kv.2) else kv) l.

(** [query(ref(db, 'invoices'), orderByChild('serviceId'), equalTo(sid))] *)
Definition invoices_of_service (db : DB) (sid : string) : list (string * Invoice) :=
  List.filter (λ kv, inv_serviceId kv.2 =? sid) (invoices db).

(** [query(ref(db, 'subdomains'), orderByChild('subdomain'), equalTo(name))] *)
Definition subdomains_named (db : DB) (name : string) : list (string * Subdomain) :=
  List.filter (λ kv, sub_subdomain kv.2 =? name) (subdomains db).

Definition set_invoice_status (st : InvoiceStatus) (i : Invoice) : Invoice :=
  mkInvoice (inv_userId i) (inv_serviceId i) (inv_serviceName i) (inv_amount i) st
            (inv_invoiceDate i) (inv_dueDate i) (inv_userEmail i)
            (inv_companyDetails i) (inv_userDetails i).

Definition set_service_status (st : ServiceStatus) (s : Service) : Service :=
  mkService (svc_name s) (svc_price s) (svc_features s) (svc_storage s) (svc_id s)
            (svc_planId s) (svc_orderDate s) (Some st) (svc_subdomain s) (svc_cpanel s).

(** The block shared by [updateServiceStatus] and the webhook: look the
    invoices of the service up and mark the first key of the result paid. *)
Definition mark_first_invoice_paid (db : DB) (sid : string) : DB :=
  match invoices_of_service db sid with
  | (invoiceKey, _) :: _ =>
      with_invoices db (kv_update invoiceKey (set_invoice_status Paid) (invoices db))
  | [] => db
  end.

(* ===================================================================== *)
(** ** [lib/actions.ts]: ordering a service *)
(* ===================================================================== *)

Record OrderServicePayload : Type := mkOrderServicePayload {
  osp_plan : Plan;
  osp_userId : string;
  osp_paymentMethod : string
}.

(** What one call of [orderService] takes from its surroundings: the keys
    of the two [push] calls ([newServiceRef.key] has type [string | null])
    and the three readings of the clock. *)
Record OrderEnv : Type := mkOrderEnv {
  oe_serviceKey : option string;
  oe_invoiceKey : string;
  oe_orderDate : string;
  oe_invoiceDate : string;
  oe_dueDate : string
}.

(** The messages of the three [throw new Error(...)] of [orderService];
    the specification calls them [InvalidRequest], [LimitExceeded] and a
    persistence failure.  The errors of the SDK come on top. *)
Definition InvalidRequest : string :=
  "User ID and Plan are required to place an order.".
Definition LimitExceeded : string :=
  "You have reached the limit for free services. You can only have one free service at a time.".
Definition KeyGenerationFailed : string :=
  "Failed to generate a unique service ID.".

(** [Object.values(services).some((service) => service.price === 0)] *)
Definition hasExistingFreeService (services : gmap string Service) : bool :=
  existsb (λ kv, bool_decide (svc_price kv.2 = Some 0%Z)) (map_to_list services).

(** The free-plan restriction of [orderService]: [true] when the order has
    to be refused. *)
Definition free_limit_reached (db : DB) (userId : string) : bool :=
  match settings_restrictions db with
  | Some r =>
      if freeUserLimitEnabled r then
        let services := get_services db userId in
        if bool_decide (services = ∅) then false
        else hasExistingFreeService services
      else false
  | None => false
  end.

(** A service as the store keeps it: [set] leaves out a child whose value
    is an empty list, so an order of a plan without features is stored
    without the [features] child that the returned object has. *)
Definition as_stored (s : Service) : Service :=
  mkService (svc_name s) (svc_price s)
            (match svc_features s with
             | Some [] => None
             | features => features
             end)
            (svc_storage s) (svc_id s) (svc_planId s) (svc_orderDate s)
            (svc_status s) (svc_subdomain s) (svc_cpanel s).

(** The guard reads [!userId || !plan || !plan.id]; a value of type [Plan]
    is never falsy, which leaves the tests on the two ids.

    [ref] is called with the path of the user's services inside the limit
    check and again before the [push]; it throws for a userId the SDK
    refuses.  A store holds no services under such an id, so the limit check
    never refuses it and the throw is placed after that check.

    The invoice is written after the service.  Its [userEmail] is the
    [email] child of the user's node, and [set] throws when that is
    [undefined]: the service is stored by then and stays without an
    invoice. *)
Definition orderService (env : OrderEnv) (p : OrderServicePayload) (db : DB)
  : Outcome (string * Service) * DB :=
  let plan := osp_plan p in
  let userId := osp_userId p in
  if negb (truthy userId) || negb (truthy_opt (plan_id plan)) then
    (Thrown InvalidRequest, db)
  else
    let isFreePlan := (plan_price plan =? 0)%Z in
    if isFreePlan && free_limit_reached db userId then
      (Thrown LimitExceeded, db)
    else
      let servicesPath := "users/" +:+ userId +:+ "/services" in
      if negb (valid_path servicesPath) then (Thrown (InvalidPath servicesPath), db)
      else
        match oe_serviceKey env with
        | None => (Thrown KeyGenerationFailed, db)
        | Some serviceId =>
            if negb (truthy serviceId) then (Thrown KeyGenerationFailed, db)
            else
              let status := if isFreePlan then Active else Pending in
              let serviceData :=
                mkService (Some (plan_name plan)) (Some (plan_price plan))
                          (Some (plan_features plan)) (plan_storage plan)
                          (Some serviceId) (plan_id plan)
                          (Some (oe_orderDate env)) (Some status) None None in
              let db1 := set_service db userId serviceId (as_stored serviceData) in
              let userDetails :=
                match users db1 !! userId with
                | Some u =>
                    mkUserDetails (user_email u)
                      (if truthy_opt (user_name u) then default "" (user_name u)
                       else "Valued Customer")
                | None => mkUserDetails (Some "N/A") "Valued Customer"
                end in
              match ud_email userDetails with
              | None =>
                  (Thrown (ContainsUndefined
                             ("invoices." +:+ oe_invoiceKey env +:+ ".userEmail")), db1)
              | Some _ =>
                  let invoiceData :=
                    mkInvoice userId serviceId (plan_name plan) (plan_price plan)
                              (if isFreePlan then Paid else Unpaid)
                              (oe_invoiceDate env) (oe_dueDate env)
                              (ud_email userDetails) (settings_invoice db1) userDetails in
                  let db2 :=
                    with_invoices db1
                      (kv_set (oe_invoiceKey env) invoiceData (invoices db1)) in
                  (Returned (serviceId, serviceData), db2)
              end
        end.

(* ===================================================================== *)
(** ** [lib/actions.ts]: administrative status change *)
(* ===================================================================== *)

Definition StatusUpdateInvalid : string := "User ID and Service ID are required.".

(** [ref] throws for ids that make a path the SDK refuses; nothing is
    written by then. *)
Definition updateServiceStatus (userId serviceId : string) (status : ServiceStatus) (db : DB)
  : Outcome unit * DB :=
  if negb (truthy userId) || negb (truthy serviceId) then
    (Thrown StatusUpdateInvalid, db)
  else
    let servicePath := "users/" +:+ userId +:+ "/services/" +:+ serviceId in
    if negb (valid_path servicePath) then (Thrown (InvalidPath servicePath), db)
    else
      let db1 := update_service db userId serviceId (set_service_status status) in
      let db2 :=
        match status with
        | Active => mark_first_invoice_paid db1 serviceId
        | _ => db1
        end in
      (Returned tt, db2).

(* ===================================================================== *)
(** ** [lib/actions.ts]: panel login *)
(* ===================================================================== *)

Record LoginResult : Type := mkLoginResult {
  lr_success : bool;
  lr_username : option string;
  lr_password : option string;
  lr_token : option string;
  lr_message : string
}.

(** [crypto.randomBytes(12).toString('hex')],
    [crypto.randomBytes(32).toString('hex')] and
    [Math.floor(Date.now() / 1000)]. *)
Record LoginEnv : Type := mkLoginEnv {
  le_password : string;
  le_token : string;
  le_now_seconds : Z
}.

Definition login_failure (message : string) : LoginResult :=
  mkLoginResult false None None None message.

(** [fullSubdomain.split('.')[0]] *)
Fixpoint before_dot (s : string) : string :=
  match s with
  | EmptyString => EmptyString
  | String c s' => if (c =? ".")%char then EmptyString else String c (before_dot s')
  end.

Definition handleAquaPanelLogin (env : LoginEnv) (userId serviceId : string) (db : DB)
  : LoginResult * DB :=
  if negb (truthy userId) || negb (truthy serviceId) then
    (login_failure "User ID and Service ID are required.", db)
  else
    match get_service db userId serviceId with
    | None => (login_failure "Service not found.", db)
    | Some service =>
        if negb (truthy_opt (svc_subdomain service)) then
          (login_failure "No subdomain is assigned to this service.", db)
        else
          let username := before_dot (default "" (svc_subdomain service)) in
          let password := le_password env in
          let token := le_token env in
          let expires_at := (le_now_seconds env + 3600)%Z in
          let db1 :=
            with_pannelneed db
              (<[username := mkPanelCredential password token expires_at userId serviceId]>
                 (pannelneed db)) in
          (mkLoginResult true (Some username) (Some password) (Some token)
                         "Temporary login session created.", db1)
    end.

(* ===================================================================== *)
(** ** [app/api/stripe/webhook]: the payment reconciler *)
(* ===================================================================== *)

Record Metadata : Type := mkMetadata {
  md_userId : option string;
  md_planId : option string;
  md_serviceId : option string
}.

(** The part of a [Stripe.Event] the handler reads: [event.type] and
    [event.data.object.metadata]. *)
Record StripeEvent : Type := mkStripeEvent {
  ev_type : string;
  ev_metadata : option Metadata
}.

(** [req.text()] and [headers().get('stripe-signature')]. *)
Record Request : Type := mkRequest {
  req_body : string;
  req_signature : option string
}.

Inductive ResponseBody : Type :=
  | ErrorBody (error : string)
  | ReceivedBody.

(** [NextResponse.json(body, { status })]; the status defaults to 200. *)
Record Response : Type := mkResponse {
  res_status : Z;
  res_body : ResponseBody
}.

Definition getStripeSecrets (db : DB) : option string * option string :=
  match settings_stripe db with
  | Some s => (secretKey s, webhookSecret s)
  | None => (None, None)
  end.

Section Webhook.

(** [stripe.webhooks.constructEvent(body, sig, webhookSecret)] of the
    Stripe SDK: it returns the verified event or throws. *)
Variable constructEvent : string → string → string → Outcome StripeEvent.

(** The [try] block that authenticates the request. *)
Definition authenticate (req : Request) (webhookSecret : string) : Outcome StripeEvent :=
  match req_signature req with
  | None => Thrown "No stripe-signature header found."
  | Some sig =>
      if negb (truthy sig) then Thrown "No stripe-signature header found."
      else constructEvent (req_body req) sig webhookSecret
  end.

(** Inside the second [try] block the invoice is marked first; [ref] on the
    path of the service then throws for ids the SDK refuses, which the
    [catch] answers with status 500. *)
Definition POST (req : Request) (db : DB) : Response * DB :=
  match getStripeSecrets db with
  | (Some secretKey, Some webhookSecret) =>
      if negb (truthy secretKey) || negb (truthy webhookSecret) then
        (mkResponse 500 (ErrorBody "Stripe is not configured."), db)
      else
        match authenticate req webhookSecret with
        | Thrown errorMessage =>
            (mkResponse 400 (ErrorBody ("Webhook Error: " +:+ errorMessage)), db)
        | Returned event =>
            if ev_type event =? "checkout.session.completed" then
              let md := default (mkMetadata None None None) (ev_metadata event) in
              match md_userId md, md_planId md, md_serviceId md with
              | Some userId, Some planId, Some serviceId =>
                  if negb (truthy userId) || negb (truthy planId) || negb (truthy serviceId)
                  then (mkResponse 200 (ErrorBody "Missing metadata."), db)
                  else
                    let db1 := mark_first_invoice_paid db serviceId in
                    let servicePath := "users/" +:+ userId +:+ "/services/" +:+ serviceId in
                    if negb (valid_path servicePath) then
                      (mkResponse 500 (ErrorBody "Database error."), db1)
                    else
                      let db2 :=
                        update_service db1 userId serviceId (set_service_status Active) in
                      (mkResponse 200 ReceivedBody, db2)
              | _, _, _ => (mkResponse 200 (ErrorBody "Missing metadata."), db)
              end
            else (mkResponse 200 ReceivedBody, db)
        end
  | _ => (mkResponse 500 (ErrorBody "Stripe is not configured."), db)
  end.

End Webhook.

(* ===================================================================== *)
(** ** Regular expressions, as far as the input schema needs them *)
(* ===================================================================== *)

Inductive regex : Type :=
  | Void
  | Eps
  | Class (p : ascii → bool)
  | Cat (r1 r2 : regex)
  | Alt (r1 r2 : regex)
  | Star (r : regex).

(** [r+] *)
Definition Plus (r : regex) : regex := Cat r (Star r).

Fixpoint nullable (r : regex) : bool :=
  match r with
  | Void => false
  | Eps => true
  | Class _ => false
  | Cat r1 r2 => nullable r1 && nullable r2
  | Alt r1 r2 => nullable r1 || nullable r2
  | Star _ => true
  end.

(** The derivative of [r] by the character [c]. *)
Fixpoint deriv (c : ascii) (r : regex) : regex :=
  match r with
  | Void => Void
  | Eps => Void
  | Class p => if p c then Eps else Void
  | Cat r1 r2 =>
      if nullable r1 then Alt (Cat (deriv c r1) r2) (deriv c r2)
      else Cat (deriv c r1) r2
  | Alt r1 r2 => Alt (deriv c r1) (deriv c r2)
  | Star r1 => Cat (deriv c r1) (Star r1)
  end.

Fixpoint accepts (r : regex) (l : list ascii) : bool :=
  match l with
  | [] => nullable r
  | c :: l' => accepts (deriv c r) l'
  end.

(** [/^r$/.test(s)]: with both anchors and no flag the whole string has to
    match. *)
Definition regex_test (r : regex) (s : string) : bool :=
  accepts r (list_ascii_of_string s).

(** The words of a regular expression. *)
Inductive Matches : regex → list ascii → Prop :=
  | MEps : Matches Eps []
  | MClass p c : p c = true → Matches (Class p) [c]
  | MCat r1 r2 l1 l2 : Matches r1 l1 → Matches r2 l2 → Matches (Cat r1 r2) (l1 ++ l2)
  | MAltL r1 r2 l : Matches r1 l → Matches (Alt r1 r2) l
  | MAltR r1 r2 l : Matches r2 l → Matches (Alt r1 r2) l
  | MStarNil r : Matches (Star r) []
  | MStarApp r l1 l2 : Matches r l1 → Matches (Star r) l2 → Matches (Star r) (l1 ++ l2).

(* ===================================================================== *)
(** ** [ai/flows/create-subdomain.ts] *)
(* ===================================================================== *)

(** [[a-z0-9]] *)
Definition lower_alnum (c : ascii) : bool :=
  (("a" <=? c)%char && (c <=? "z")%char) || (("0" <=? c)%char && (c <=? "9")%char).

Definition hyphen (c : ascii) : bool := (c =? "-")%char.

(** [/^[a-z0-9]+(?:-[a-z0-9]+)*$/] *)
Definition subdomain_pattern : regex :=
  Cat (Plus (Class lower_alnum)) (Star (Cat (Class hyphen) (Plus (Class lower_alnum)))).

Record CreateSubdomainInput : Type := mkCreateSubdomainInput {
  csi_subdomain : string;
  csi_userId : string;
  csi_serviceId : option string
}.

Record CreateSubdomainOutput : Type := mkCreateSubdomainOutput {
  cso_success : bool;
  cso_message : string;
  cso_subdomain : option string
}.

(** The issues zod collects for the [subdomain] field, in the order of the
    checks [.min(3)], [.max(30)], [.regex(...)]. *)
Definition subdomain_issues (s : string) : list string :=
  (if (js_length s <? 3)%nat
   then ["Subdomain must be at least 3 characters long."] else [])
  ++ (if (30 <? js_length s)%nat
      then ["Subdomain must be no more than 30 characters long."] else [])
  ++ (if regex_test subdomain_pattern s then []
      else ["Subdomain can only contain lowercase letters, numbers, and hyphens, and cannot start or end with a hyphen."]).

(** The issues of [userId: z.string().min(1, ...)]. *)
Definition userId_issues (s : string) : list string :=
  if (String.length s <? 1)%nat then ["User ID is required."] else [].

(** [error.flatten().fieldErrors]: the fields that have issues. *)
Definition fieldErrors (input : CreateSubdomainInput) : list (string * list string) :=
  List.filter (λ fe, negb (bool_decide (fe.2 = [])))
    [("subdomain", subdomain_issues (csi_subdomain input));
     ("userId", userId_issues (csi_userId input))].

(** [CreateSubdomainInputSchema.safeParse(input)]: the parsed data or the
    field errors. *)
Definition safeParse (input : CreateSubdomainInput)
  : CreateSubdomainInput + list (string * list string) :=
  match fieldErrors input with
  | [] => inl input
  | errs => inr errs
  end.

Definition dquote : string := String (ascii_of_nat 34) EmptyString.

Definition join (sep : string) (l : list string) : string :=
  match l with
  | [] => ""
  | x :: l' => fold_left (λ acc y, acc +:+ sep +:+ y) l' x
  end.

(** [JSON.stringify] of the field errors; the messages hold no character
    that needs an escape. *)
Definition stringify_fieldErrors (errs : list (string * list string)) : string :=
  "{" +:+
  join "," (List.map (λ fe,
    dquote +:+ fe.1 +:+ dquote +:+ ":[" +:+
    join "," (List.map (λ m, dquote +:+ m +:+ dquote) fe.2) +:+ "]") errs)
  +:+ "}".

(** The body of the provisioning API's answer after [JSON.parse]:
    [data.status] when it is a number and [data.errors[0]]. *)
Record ApiData : Type := mkApiData {
  api_status : option Z;
  api_first_error : option string
}.

(** One HTTP exchange with the provisioning API: [fetch] throws, or there
    is a response with [response.ok], [response.status], the body text and
    what [JSON.parse] makes of it ([None] when it throws). *)
Inductive FetchOutcome : Type :=
  | FetchThrows (message : string)
  | FetchResponse (ok : bool) (status : Z) (responseText : string) (data : option ApiData).

(** The form fields sent to the provisioning API. *)
Record ApiCall : Type := mkApiCall {
  call_subdomain : string;
  call_rootdomain : string;
  call_dir : string
}.

Record ToolResult : Type := mkToolResult {
  tool_success : bool;
  tool_message : string
}.

(** What one call of the flow takes from its surroundings. *)
Record ProvisionEnv : Type := mkProvisionEnv {
  pe_fetch : ApiCall → FetchOutcome;
  pe_password : string;
  pe_token : string;
  pe_now_ms : Z;
  pe_createdAt : string;
  pe_pushKey : string
}.

Definition createSubdomainOnServer (env : ProvisionEnv) (subdomain rootDomain : string)
  : ToolResult * list ApiCall :=
  let docRoot := subdomain +:+ "." +:+ rootDomain in
  let params := mkApiCall subdomain rootDomain docRoot in
  let result :=
    match pe_fetch env params with
    | FetchThrows errorMessage =>
        mkToolResult false ("An exception occurred while calling the API: " +:+ errorMessage)
    | FetchResponse ok status responseText parsed =>
        if negb ok then
          mkToolResult false ("API call failed with status " +:+ pretty status +:+ ".")
        else
          match parsed with
          | None => mkToolResult false ("Failed to parse API response: " +:+ responseText)
          | Some data =>
              if bool_decide (api_status data = Some 1%Z) then
                mkToolResult true "Subdomain created successfully via API."
              else
                let errorMessage :=
                  if truthy_opt (api_first_error data)
                  then default "" (api_first_error data)
                  else "Unknown API error during creation." in
                mkToolResult false ("API Error: " +:+ errorMessage)
          end
    end in
  (result, [params]).

(** The messages of the two failures the flow reports before it calls the
    provisioning API; the specification calls them [NotConfigured] and
    [AlreadyTaken]. *)
Definition NotConfigured : string :=
  "The main domain is not configured by the administrator.".
Definition AlreadyTaken (fullSubdomain : string) : string :=
  "The subdomain '" +:+ fullSubdomain +:+ "' is already taken. Please choose another one.".

Definition set_provisioned (fullSubdomain : string) (cpanel : Cpanel) (s : Service) : Service :=
  mkService (svc_name s) (svc_price s) (svc_features s) (svc_storage s) (svc_id s)
            (svc_planId s) (svc_orderDate s) (Some Active) (Some fullSubdomain) (Some cpanel).

(** The handler of [createSubdomainFlow].  The third component lists the
    calls made to the external provisioning API.

    The record is written with [serviceId: input.serviceId]; without a
    serviceId that property is [undefined] and [set] throws, after the
    provisioning API was called.  With a non-empty serviceId, [ref] on the
    path of the service throws for ids the SDK refuses, after the record was
    written. *)
Definition createSubdomainFlow (env : ProvisionEnv) (input : CreateSubdomainInput) (db : DB)
  : Outcome CreateSubdomainOutput * DB * list ApiCall :=
  match settings_domain db with
  | None => (Returned (mkCreateSubdomainOutput false NotConfigured None), db, [])
  | Some settings =>
      if negb (truthy (domain settings)) then
        (Returned (mkCreateSubdomainOutput false NotConfigured None), db, [])
      else
        let domainToUse := domain settings in
        let fullSubdomain := csi_subdomain input +:+ "." +:+ domainToUse in
        match subdomains_named db fullSubdomain with
        | _ :: _ =>
            (Returned (mkCreateSubdomainOutput false (AlreadyTaken fullSubdomain) None),
             db, [])
        | [] =>
            let '(creationResult, calls) :=
              createSubdomainOnServer env (csi_subdomain input) domainToUse in
            if negb (tool_success creationResult) then
              (Returned (mkCreateSubdomainOutput false (tool_message creationResult) None),
               db, calls)
            else
              let password := pe_password env in
              let token := pe_token env in
              let tokenExpires := (pe_now_ms env + 60 * 60 * 1000)%Z in
              let success :=
                mkCreateSubdomainOutput true
                  ("Subdomain '" +:+ fullSubdomain
                   +:+ "' has been successfully created and is now active.")
                  (Some fullSubdomain) in
              match csi_serviceId input with
              | None =>
                  (Thrown (ContainsUndefined
                             ("subdomains." +:+ pe_pushKey env +:+ ".serviceId")),
                   db, calls)
              | Some serviceId =>
                  let db1 :=
                    with_subdomains db
                      (kv_set (pe_pushKey env)
                         (mkSubdomain (csi_userId input) fullSubdomain (pe_createdAt env)
                                      "Active" (csi_serviceId input))
                         (subdomains db)) in
                  if truthy serviceId then
                    let servicePath :=
                      "users/" +:+ csi_userId input +:+ "/services/" +:+ serviceId in
                    if negb (valid_path servicePath) then
                      (Thrown (InvalidPath servicePath), db1, calls)
                    else
                      (Returned success,
                       update_service db1 (csi_userId input) serviceId
                         (set_provisioned fullSubdomain
                            (mkCpanel (csi_subdomain input) password token tokenExpires)),
                       calls)
                  else (Returned success, db1, calls)
              end
        end
  end.

(** [createSubdomain]: validate, then run the flow on the parsed data. *)
Definition createSubdomain (env : ProvisionEnv) (input : CreateSubdomainInput) (db : DB)
  : Outcome CreateSubdomainOutput * DB * list ApiCall :=
  match safeParse input with
  | inr errs => (Thrown ("Invalid input: " +:+ stringify_fieldErrors errs), db, [])
  | inl data => createSubdomainFlow env data db
  end.

(* ===================================================================== *)
(** ** Vocabulary of the properties *)
(* ===================================================================== *)

(** The user owns the service [s] under the key [sid]. *)
Definition owns_service (db : DB) (userId sid : string) (s : Service) : Prop :=
  get_services db userId !! sid = Some s.

Definition limit_flag_set (db : DB) : Prop :=
  ∃ r, settings_restrictions db = Some r ∧ freeUserLimitEnabled r = true.

(** Both Stripe secrets are configured. *)
Definition stripe_configured (db : DB) (webhookSecret : string) : Prop :=
  ∃ secretKey,
    getStripeSecrets db = (Some secretKey, Some webhookSecret)
    ∧ truthy secretKey = true ∧ truthy webhookSecret = true.

(** The ways a label can break the rules of the input schema. *)
Definition too_short (label : string) : Prop := (String.length label < 3)%nat.
Definition too_long (label : string) : Prop := (30 < String.length label)%nat.
Definition has_foreign_character (label : string) : Prop :=
  ∃ c, In c (list_ascii_of_string label) ∧ lower_alnum c = false ∧ hyphen c = false.
Definition leading_hyphen (label : string) : Prop :=
  ∃ rest, label = String "-" rest.
Definition trailing_hyphen (label : string) : Prop :=
  ∃ front, label = front +:+ "-".

Definition label_violation (label : string) : Prop :=
  too_short label ∨ too_long label ∨ has_foreign_character label
  ∨ leading_hyphen label ∨ trailing_hyphen label.

(** The fully-qualified names of the Subdomain records. *)
Definition subdomain_names (db : DB) : list string :=
  List.map (λ kv, sub_subdomain kv.2) (subdomains db).

Definition names_unique (db : DB) : Prop := List.NoDup (subdomain_names db).

(** No two Subdomain records carry the same non-empty serviceId. *)
Definition one_subdomain_per_service (db : DB) : Prop :=
  ∀ i j k1 r1 k2 r2 sid,
    subdomains db !! i = Some (k1, r1) →
    subdomains db !! j = Some (k2, r2) →
    sub_serviceId r1 = Some sid → sub_serviceId r2 = Some sid →
    truthy sid = true → i = j.

(** The states a sequence of provisioning operations leads to from [db0]. *)
Inductive provisioned_from (db0 : DB) : DB → Prop :=
  | prov_start : provisioned_from db0 db0
  | prov_step env input db :
      provisioned_from db0 db →
      provisioned_from db0 (createSubdomainFlow env input db).1.2.

(** A successful-payment event with complete correlation metadata. *)
Definition payment_event (ev : StripeEvent) (userId planId serviceId : string) : Prop :=
  ev_type ev = "checkout.session.completed"
  ∧ ev_metadata ev = Some (mkMetadata (Some userId) (Some planId) (Some serviceId))
  ∧ truthy userId = true ∧ truthy planId = true ∧ truthy serviceId = true.

(** The signature header is absent or empty. *)
Definition signature_missing (req : Request) : Prop :=
  truthy_opt (req_signature req) = false.

Definition label_char (c : ascii) : Prop := lower_alnum c = true ∨ hyphen c = true.

Definition starts_alnum (l : list ascii) : Prop :=
  ∃ c rest, l = c :: rest ∧ lower_alnum c = true.

Definition ends_alnum (l : list ascii) : Prop :=
  ∃ front c, l = (front ++ [c])%list ∧ lower_alnum c = true.

(* ===================================================================== *)
(** ** Concrete stores and requests *)
(* ===================================================================== *)

Definition free_plan_without_id : Plan := mkPlan None "Free" 0 ["1 GB"] (Some 1024%Z).
Definition free_plan : Plan := mkPlan (Some "p0") "Free" 0 ["1 GB"] (Some 1024%Z).
Definition paid_plan : Plan := mkPlan (Some "p1") "Pro" 499 ["10 GB"] (Some 10240%Z).

Definition free_service : Service :=
  mkService (Some "Free") (Some 0%Z) (Some ["1 GB"]) (Some 1024%Z) (Some "-S0")
            (Some "p0") (Some "2024-01-01T00:00:00.000Z") (Some Suspended) None None.

(** A store with the free-plan limit switched on in which [u1] owns one
    suspended service of price 0. *)
Definition limited_db : DB :=
  mkDB (Some (mkRestrictions true)) None None None
       {[ "u1" := mkUser (Some "u1@example.com") (Some "Uma") {[ "-S0" := free_service ]} ]}
       [] [] ∅.

(** A store with the limit switched on in which [u2] has an account and no
    service yet. *)
Definition newcomer_db : DB :=
  mkDB (Some (mkRestrictions true)) None None None
       {[ "u2" := mkUser (Some "u2@example.com") (Some "Udo") ∅ ]}
       [] [] ∅.

Definition an_order_env : OrderEnv :=
  mkOrderEnv (Some "-S1") "-I1" "2024-02-01T00:00:00.000Z"
             "2024-02-01T00:00:00.001Z" "2024-02-01T00:00:00.002Z".

(** A stand-in for Stripe's check, used to run the handler on concrete
    requests: the signature is good when it repeats the signing secret, and
    the body names the event. *)
Definition demo_constructEvent (body sig secret : string) : Outcome StripeEvent :=
  if sig =? secret then
    if body =? "paid" then
      Returned (mkStripeEvent "checkout.session.completed"
                  (Some (mkMetadata (Some "u1") (Some "p1") (Some "-S1"))))
    else Returned (mkStripeEvent "payment_intent.created" None)
  else Thrown "No signatures found matching the expected signature for payload.".

(** The store after [u1] ordered the paid plan, with Stripe configured. *)
Definition pending_db : DB :=
  let db := (orderService an_order_env (mkOrderServicePayload paid_plan "u1" "stripe")
               limited_db).2 in
  mkDB (settings_restrictions db) (Some (mkStripeSettings (Some "sk_test") (Some "whsec")))
       (Some (mkDomainSettings "example.com")) (settings_invoice db)
       (users db) (invoices db) (subdomains db) (pannelneed db).

Definition suspended_service : Service :=
  mkService (Some "Pro") (Some 499%Z) (Some ["10 GB"]) (Some 10240%Z) (Some "-S7")
            (Some "p1") (Some "2024-01-01T00:00:00.000Z") (Some Suspended)
            (Some "shop.example.com") None.

(** A store in which the service [-S7] of [u1] has a subdomain and was
    suspended. *)
Definition suspended_db : DB :=
  mkDB None None (Some (mkDomainSettings "example.com")) None
       {[ "u1" := mkUser (Some "u1@example.com") (Some "Uma") {[ "-S7" := suspended_service ]} ]}
       [] [] ∅.

Definition a_login_env : LoginEnv :=
  mkLoginEnv "00112233445566778899aabb"
             "000102030405060708090a0b0c0d0e0f101112131415161718191a1b1c1d1e1f"
             1700000000.

Definition a_provision_env (pushKey : string) : ProvisionEnv :=
  mkProvisionEnv
    (λ _, FetchResponse true 200 "{status:1}" (Some (mkApiData (Some 1%Z) None)))
    "00112233445566778899aabb"
    "000102030405060708090a0b0c0d0e0f101112131415161718191a1b1c1d1e1f"
    1700000000000 "2024-03-01T00:00:00.000Z" pushKey.

Definition unprovisioned_service : Service :=
  mkService (Some "Pro") (Some 499%Z) (Some ["10 GB"]) (Some 10240%Z) (Some "-S7")
            (Some "p1") (Some "2024-01-01T00:00:00.000Z") (Some Active) None None.

(** A store with a root domain and no Subdomain record, in which the
    service [-S7] of [u1] has no subdomain yet. *)
Definition provision_db : DB :=
  mkDB None None (Some (mkDomainSettings "example.com")) None
       {[ "u1" := mkUser (Some "u1@example.com") (Some "Uma")
                         {[ "-S7" := unprovisioned_service ]} ]}
       [] [] ∅.

(** The store after the label [shop] was provisioned for the service
    [-S7] of [u1]. *)
Definition shop_db : DB :=
  (createSubdomainFlow (a_provision_env "-K1")
     (mkCreateSubdomainInput "shop" "u1" (Some "-S7")) provision_db).1.2.

(** The store after a second label, [shop2], was provisioned for the same
    service. *)
Definition shop2_db : DB :=
  (createSubdomainFlow (a_provision_env "-K2")
     (mkCreateSubdomainInput "shop2" "u1" (Some "-S7")) shop_db).1.2.

(* ===================================================================== *)
(** ** [lib/actions.ts]: the subdomain form action *)
(* ===================================================================== *)

(** The three fields [handleSubdomainCreation] reads with [formData.get];
    a field the form does not hold reads as [null].  File entries are left
    out. *)
Record SubdomainFormData : Type := mkSubdomainFormData {
  fd_subdomain : option string;
  fd_userId : option string;
  fd_serviceId : option string
}.

Record SubdomainFormState : Type := mkSubdomainFormState {
  sfs_message : string;
  sfs_fields : option (list (string * string));
  sfs_isError : bool;
  sfs_result : option CreateSubdomainOutput
}.

Section SubdomainForm.

(** The text of zod's issue for a [null] where a string is expected; it
    depends on the version of the library. *)
Variable invalid_type_null : string.

(** The field errors of [subdomainSchema], which repeats the rules and the
    messages of the flow's schema.  [z.string()] refuses [null], and so does
    [z.string().optional()], which lets only [undefined] through. *)
Definition form_fieldErrors (form : SubdomainFormData) : list (string * list string) :=
  List.filter (λ fe, negb (bool_decide (fe.2 = [])))
    [("subdomain", match fd_subdomain form with
                   | Some s => subdomain_issues s
                   | None => [invalid_type_null]
                   end);
     ("userId", match fd_userId form with
                | Some s => userId_issues s
                | None => [invalid_type_null]
                end);
     ("serviceId", match fd_serviceId form with
                   | Some _ => []
                   | None => [invalid_type_null]
                   end)].

(** [subdomainSchema.safeParse({...})]; without field errors the two
    required fields are strings, so the last branch is never taken. *)
Definition safeParse_form (form : SubdomainFormData)
  : CreateSubdomainInput + list (string * list string) :=
  match form_fieldErrors form with
  | [] =>
      match fd_subdomain form, fd_userId form with
      | Some subdomain, Some userId =>
          inl (mkCreateSubdomainInput subdomain userId (fd_serviceId form))
      | _, _ => inr []
      end
  | errs => inr errs
  end.

Definition handleSubdomainCreation (env : ProvisionEnv) (form : SubdomainFormData) (db : DB)
  : SubdomainFormState * DB * list ApiCall :=
  match safeParse_form form with
  | inr errs =>
      let fields := List.map (λ fe, (fe.1, join ", " fe.2)) errs in
      (mkSubdomainFormState "Validation failed. Please check the form." (Some fields)
                            true None, db, [])
  | inl data =>
      match createSubdomain env data db with
      | (Returned result, db', calls) =>
          (mkSubdomainFormState (cso_message result) None (negb (cso_success result))
                                (Some result), db', calls)
      | (Thrown errorMessage, db', calls) =>
          (mkSubdomainFormState errorMessage None true None, db', calls)
      end
  end.

End SubdomainForm.

(* ===================================================================== *)
(** ** [lib/actions.ts]: support tickets *)
(* ===================================================================== *)

Inductive TicketStatus : Type :=
  | TicketOpen | TicketInProgress | TicketAnswered | TicketClosed.

Inductive ReplyAuthor : Type := AuthorAdmin | AuthorUser.

(** The node [tickets/<id>/replies/<key>]. *)
Record Reply : Type := mkReply {
  reply_author : ReplyAuthor;
  reply_authorName : string;
  reply_message : string;
  reply_timestamp : string
}.

(** What [handleTicketSubmission] stores beside the status and the replies;
    the actions below neither read nor write these children. *)
Record TicketDetails : Type := mkTicketDetails {
  td_userId : string;
  td_userEmail : string;
  td_ticketTitle : string;
  td_ticketDescription : string;
  td_priorityScore : Z;
  td_reason : string;
  td_createdAt : string
}.

(** The node [tickets/<id>].  [update] may create it from a status alone
    and a reply may be set below a ticket that is not there, so the details
    and the status can be absent.  The replies are a node of their own,
    keyed by push keys. *)
Record Ticket : Type := mkTicket {
  tk_details : option TicketDetails;
  tk_status : option TicketStatus;
  tk_replies : gmap string Reply
}.

Definition no_ticket : Ticket := mkTicket None None ∅.

Definition set_ticket_status (st : TicketStatus) (t : Ticket) : Ticket :=
  mkTicket (tk_details t) (Some st) (tk_replies t).

Definition add_reply (key : string) (r : Reply) (t : Ticket) : Ticket :=
  mkTicket (tk_details t) (tk_status t) (<[key := r]> (tk_replies t)).

(** *** [String.prototype.trim]

    [trim] strips the white space and the line terminators of ECMAScript
    from both ends.  Some of them lie outside ASCII; such a character is
    taken in its UTF-8 encoding here. *)

Definition bytes (l : list nat) : list ascii := List.map ascii_of_nat l.

(** TAB, VT, FF, SP, NBSP, ZWNBSP and the space separators U+1680,
    U+2000 to U+200A, U+202F, U+205F and U+3000. *)
Definition WhiteSpace : list (list ascii) :=
  [bytes [9]; bytes [11]; bytes [12]; bytes [32];
   bytes [194; 160]; bytes [239; 187; 191]; bytes [225; 154; 128];
   bytes [226; 128; 128]; bytes [226; 128; 129]; bytes [226; 128; 130];
   bytes [226; 128; 131]; bytes [226; 128; 132]; bytes [226; 128; 133];
   bytes [226; 128; 134]; bytes [226; 128; 135]; bytes [226; 128; 136];
   bytes [226; 128; 137]; bytes [226; 128; 138];
   bytes [226; 128; 175]; bytes [226; 129; 159]; bytes [227; 128; 128]].

(** LF, CR, LS (U+2028) and PS (U+2029). *)
Definition LineTerminator : list (list ascii) :=
  [bytes [10]; bytes [13]; bytes [226; 128; 168]; bytes [226; 128; 169]].

Definition StrWhiteSpaceChar : list (list ascii) :=
  (WhiteSpace ++ LineTerminator)%list.

(** [l] without the prefix [p], if it starts with [p]. *)
Fixpoint strip_prefix (p l : list ascii) : option (list ascii) :=
  match p, l with
  | [], _ => Some l
  | c :: p', d :: l' => if (c =? d)%char then strip_prefix p' l' else None
  | _ :: _, [] => None
  end.

(** [l] without the first of the words [ps] it starts with. *)
Fixpoint strip_any (ps : list (list ascii)) (l : list ascii) : option (list ascii) :=
  match ps with
  | [] => None
  | p :: ps' =>
      match strip_prefix p l with
      | Some l' => Some l'
      | None => strip_any ps' l
      end
  end.

(** Strip words of [ps] from the front as long as there is one; every
    step removes a byte, so [n] steps are enough for a sequence of length
    [n]. *)
Fixpoint strip_all (n : nat) (ps : list (list ascii)) (l : list ascii) : list ascii :=
  match n with
  | O => l
  | S n' =>
      match strip_any ps l with
      | Some l' => strip_all n' ps l'
      | None => l
      end
  end.

Definition trimStart (l : list ascii) : list ascii :=
  strip_all (List.length l) StrWhiteSpaceChar l.

Definition trimEnd (l : list ascii) : list ascii :=
  List.rev (strip_all (List.length l) (List.map (@List.rev ascii) StrWhiteSpaceChar) (List.rev l)).

Definition trim (s : string) : string :=
  string_of_list_ascii (trimEnd (trimStart (list_ascii_of_string s))).

(** *** The actions *)

(** [update(ref(db, `tickets/${ticketId}`), { status })]; [ref] throws for
    an id that makes a path the SDK refuses. *)
Definition updateTicketStatus (ticketId : string) (status : TicketStatus)
    (tickets : gmap string Ticket) : Outcome unit * gmap string Ticket :=
  let ticketPath := "tickets/" +:+ ticketId in
  if negb (valid_path ticketPath) then (Thrown (InvalidPath ticketPath), tickets)
  else
    (Returned tt,
     <[ticketId := set_ticket_status status (default no_ticket (tickets !! ticketId))]>
       tickets).

Definition ReplyEmpty : string := "Reply cannot be empty.".

(** The key of the [push] below [tickets/<id>/replies] and
    [new Date().toISOString()]. *)
Record ReplyEnv : Type := mkReplyEnv {
  re_replyKey : string;
  re_timestamp : string
}.

Definition postReply (env : ReplyEnv) (ticketId replyText : string) (author : ReplyAuthor)
    (authorName : string) (tickets : gmap string Ticket) : Outcome unit * gmap string Ticket :=
  if negb (truthy (trim replyText)) then (Thrown ReplyEmpty, tickets)
  else
    let reply := mkReply author authorName replyText (re_timestamp env) in
    let repliesPath := "tickets/" +:+ ticketId +:+ "/replies" in
    if negb (valid_path repliesPath) then (Thrown (InvalidPath repliesPath), tickets)
    else
      let tickets1 :=
        <[ticketId := add_reply (re_replyKey env) reply
                        (default no_ticket (tickets !! ticketId))]>
          tickets in
      match author with
      | AuthorAdmin => updateTicketStatus ticketId TicketAnswered tickets1
      | AuthorUser => updateTicketStatus ticketId TicketInProgress tickets1
      end.

(** [remove(ref(db, 'tickets'))] *)
Definition clearAllTickets (tickets : gmap string Ticket) : gmap string Ticket := ∅.

(** For each ticket the loop of [bulkAutoReply] visits: the key of its
    [push] and its reading of the clock. *)
Record BulkReplyEnv : Type := mkBulkReplyEnv {
  bre_replyKey : string → string;
  bre_timestamp : string → string
}.

Definition AutoReplyMessage : string := "Your problem will be solved within a few days.".

(** [tickets[ticketId].status === 'Open' || tickets[ticketId].status === 'In Progress'] *)
Definition open_or_in_progress (t : Ticket) : bool :=
  match tk_status t with
  | Some TicketOpen | Some TicketInProgress => true
  | _ => false
  end.

(** The loop collects, for every ticket that is open or in progress, the
    two paths [tickets/<id>/replies/<key>] and [tickets/<id>/status]; one
    multi-path [update] then writes them all. *)
Definition bulkAutoReply (env : BulkReplyEnv) (tickets : gmap string Ticket) : gmap string Ticket :=
  map_imap (λ ticketId t,
    if open_or_in_progress t then
      let reply := mkReply AuthorAdmin "System Bot" AutoReplyMessage
                           (bre_timestamp env ticketId) in
      Some (set_ticket_status TicketAnswered (add_reply (bre_replyKey env ticketId) reply t))
    else Some t) tickets.

(* ===================================================================== *)
(** ** [lib/actions.ts]: password reset *)
(* ===================================================================== *)

(** The children of [users/<uid>] that the password reset reads and
    writes; it leaves the services and every other child of the user alone.
    The accounts are listed in the key order of the store, because the code
    picks [Object.keys(snapshot.val())[0]] from the result of the query by
    email. *)
Record Account : Type := mkAccount {
  acc_email : option string;
  acc_password : option string;
  acc_resetOtp : option string;
  acc_resetOtpExpires : option Z
}.

Record PasswordResetFormState : Type := mkPasswordResetFormState {
  prs_message : string;
  prs_isError : bool;
  prs_success : option bool;
  prs_email : option string
}.



(** The fields of the reset form as [Object.fromEntries(formData)] gives
    them; a field the form does not hold is [undefined]. *)
Record ResetForm : Type := mkResetForm {
  rf_email : option string;
  rf_otp : option string;
  rf_password : option string;
  rf_confirmPassword : option string
}.

(** [query(ref(db, 'users'), orderByChild('email'), equalTo(email))] *)
Definition accounts_with_email (email : string) (accounts : list (string * Account))
  : list (string * Account) :=
  List.filter (λ kv, bool_decide (acc_email kv.2 = Some email)) accounts.


Definition set_password (password : string) (a : Account) : Account :=
  mkAccount (acc_email a) (Some password) None None.

(** The first of the issues that are raised. *)
Fixpoint first_issue (issues : list (option string)) : option string :=
  match issues with
  | [] => None
  | Some m :: _ => Some m
  | None :: rest => first_issue rest
  end.

Section PasswordReset.

(** What zod contributes: its test of an email address and the texts of its
    own messages for a [null] and for an [undefined] where a string is
    expected and for a string of more than six characters.  They depend on
    the version of the library. *)
Variable is_email : string → bool.
Variable invalid_type_null : string.
Variable invalid_type_undefined : string.
Variable too_big_6 : string.



(** The issues of [resetPasswordSchema] in the order they are raised: the
    fields in the order of the schema, then the refinement.  The message of
    the action is that of the first one. *)
Definition reset_issues (form : ResetForm) : list (option string) :=
  [match rf_email form with
   | None => Some invalid_type_undefined
   | Some e => if is_email e then None else Some "Please enter a valid email address."
   end;
   match rf_otp form with
   | None => Some invalid_type_undefined
   | Some o =>
       if (js_length o <? 6)%nat then Some "OTP must be 6 digits."
       else if (6 <? js_length o)%nat then Some too_big_6
       else None
   end;
   match rf_password form with
   | None => Some invalid_type_undefined
   | Some p =>
       if (js_length p <? 6)%nat then Some "Password must be at least 6 characters."
       else None
   end;
   match rf_confirmPassword form with
   | None => Some invalid_type_undefined
   | Some _ => None
   end;
   if bool_decide (rf_password form = rf_confirmPassword form) then None
   else Some "Passwords do not match."].

(** [user.resetOtp !== otp || user.resetOtpExpires < Date.now()]; the
    comparison with an absent expiry is false. *)
Definition otp_refused (user : Account) (otp : string) (now : Z) : bool :=
  negb (bool_decide (acc_resetOtp user = Some otp))
  || match acc_resetOtpExpires user with
     | Some expires => (expires <? now)%Z
     | None => false
     end.

Definition handlePasswordReset (now : Z) (form : ResetForm) (accounts : list (string * Account))
  : PasswordResetFormState * list (string * Account) :=
  match first_issue (reset_issues form) with
  | Some firstError => (mkPasswordResetFormState firstError true None None, accounts)
  | None =>
      let email := default "" (rf_email form) in
      let otp := default "" (rf_otp form) in
      let password := default "" (rf_password form) in
      match accounts_with_email email accounts with
      | [] =>
          (mkPasswordResetFormState "Invalid OTP or email address." true None None, accounts)
      | (userId, user) :: _ =>
          if otp_refused user otp now then
            (mkPasswordResetFormState "Invalid or expired OTP." true None None, accounts)
          else
            (mkPasswordResetFormState
               "Password has been reset successfully! You can now log in."
               false (Some true) None,
             kv_update userId (set_password password) accounts)
      end
  end.

End PasswordReset.

(* ===================================================================== *)
(** ** Vocabulary of the further properties *)
(* ===================================================================== *)

(** An invoice after a payment may have been recorded on it: the same key
    and the same record, except that the status may have become [Paid]. *)
Definition invoice_kept_or_paid (old new : string * Invoice) : Prop :=
  new.1 = old.1 ∧ (new.2 = old.2 ∨ new.2 = set_invoice_status Paid old.2).

(** The node an [update] of the status alone creates where there was none. *)
Definition service_stub (st : ServiceStatus) : Service :=
  mkService None None None None None None None (Some st) None None.

(** The settings, the Subdomain records and the panel credentials of two
    stores agree. *)
Definition same_settings_and_provisioning (db db' : DB) : Prop :=
  settings_restrictions db' = settings_restrictions db
  ∧ settings_stripe db' = settings_stripe db
  ∧ settings_domain db' = settings_domain db
  ∧ settings_invoice db' = settings_invoice db
  ∧ subdomains db' = subdomains db
  ∧ pannelneed db' = pannelneed db.

(** The correlation metadata of an event is incomplete: one of the three
    ids is absent or empty. *)
Definition metadata_incomplete (ev : StripeEvent) : Prop :=
  let md := default (mkMetadata None None None) (ev_metadata ev) in
  truthy_opt (md_userId md) = false
  ∨ truthy_opt (md_planId md) = false
  ∨ truthy_opt (md_serviceId md) = false.

(** An id holds no character that [ref] refuses in a path. *)
Definition path_safe (id : string) : bool :=
  forallb (λ c, negb (invalid_path_char c)) (list_ascii_of_string id).

(** An id as the store generates and keeps it: a key of the store, short
    enough for every path the actions build from it to stay within the 768
    bytes the SDK allows for a written path. *)
Definition store_key (id : string) : Prop :=
  valid_key id = true ∧ (String.length id ≤ 256)%nat.

(** An id that is one segment of a path, of a length that keeps the paths
    built from it within the bytes the SDK allows: it holds no slash.  It
    may still hold a character that [ref] refuses. *)
Definition one_segment (id : string) : Prop :=
  forallb (λ c, negb (c =? "/")%char) (list_ascii_of_string id) = true
  ∧ (String.length id ≤ 256)%nat.

(** The ids a form carries are single segments. *)
Definition form_ids_one_segment (form : SubdomainFormData) : Prop :=
  (∀ id, fd_userId form = Some id → one_segment id)
  ∧ (∀ id, fd_serviceId form = Some id → one_segment id).

(** The [email] child of the node [users/<uid>], if the node has one. *)
Definition email_of (db : DB) (userId : string) : option string :=
  users db !! userId ≫= user_email.

(** The white space of ASCII: tab, line feed, vertical tab, form feed,
    carriage return and space. *)
Definition ascii_space (c : ascii) : Prop :=
  In (nat_of_ascii c) [9; 10; 11; 12; 13; 32]%nat.

(** A text that holds nothing but ASCII white space; the empty text is
    one. *)
Definition only_spaces (s : string) : Prop :=
  Forall ascii_space (list_ascii_of_string s).

(** A printable ASCII character other than the space. *)
Definition visible (c : ascii) : Prop :=
  (33 ≤ nat_of_ascii c ≤ 126)%nat.

Definition has_visible_character (s : string) : Prop :=
  ∃ c, In c (list_ascii_of_string s) ∧ visible c.

(** A reset form that is filled in as the schema asks: an email address,
    a code of six characters, and a password of at least six characters
    that is typed twice. *)
Definition reset_form (email otp password : string) : ResetForm :=
  mkResetForm (Some email) (Some otp) (Some password) (Some password).


(* ===================================================================== *)
(** ** Lemmas about the store *)
(* ===================================================================== *)

Lemma truthy_true (s : string) : truthy s = true ↔ s ≠ "".
Proof.
  unfold truthy. rewrite negb_true_iff. split.
  - intros H ->. discriminate.
  - intros H. apply String.eqb_neq. exact H.
Qed.

Lemma truthy_opt_Some (o : option string) :
  truthy_opt o = true → ∃ s, o = Some s ∧ truthy s = true.
Proof. destruct o as [s|]; simpl; [eauto | discriminate]. Qed.

Lemma kv_get_set_eq {A : Type} (k : string) (v : A) (l : list (string * A)) :
  kv_get k (kv_set k v l) = Some v.
Proof.
  induction l as [|[k' v'] l IH]; simpl.
  - rewrite String.eqb_refl. reflexivity.
  - destruct (k' =? k) eqn:E; simpl.
    + rewrite String.eqb_refl. reflexivity.
    + rewrite E. exact IH.
Qed.

Lemma get_services_set_service (db : DB) (uid sid : string) (s : Service) :
  get_services (set_service db uid sid s) uid
  = <[sid := s]> (get_services db uid).
Proof.
  unfold get_services, set_service. simpl.
  rewrite lookup_insert_eq. simpl.
  destruct (users db !! uid); reflexivity.
Qed.

Lemma get_services_update_service (db : DB) (uid sid : string) (f : Service → Service) :
  get_services (update_service db uid sid f) uid !! sid
  = Some (f (default no_service (get_services db uid !! sid))).
Proof.
  unfold update_service. rewrite get_services_set_service.
  apply lookup_insert_eq.
Qed.

Lemma get_service_with_invoices (db : DB) (ivs : list (string * Invoice)) (uid sid : string) :
  get_service (with_invoices db ivs) uid sid = get_service db uid sid.
Proof. reflexivity. Qed.

Lemma invoices_set_service (db : DB) (uid sid : string) (s : Service) :
  invoices (set_service db uid sid s) = invoices db.
Proof. reflexivity. Qed.

Lemma hasExistingFreeService_true (services : gmap string Service) (sid : string) (s : Service) :
  services !! sid = Some s → svc_price s = Some 0%Z →
  hasExistingFreeService services = true.
Proof.
  intros Hs Hp. unfold hasExistingFreeService.
  apply existsb_exists. exists (sid, s). split.
  - apply list_elem_of_In, elem_of_map_to_list. exact Hs.
  - simpl. apply bool_decide_eq_true. exact Hp.
Qed.

Lemma free_limit_reached_true (db : DB) (userId sid : string) (s : Service) :
  limit_flag_set db → owns_service db userId sid s → svc_price s = Some 0%Z →
  free_limit_reached db userId = true.
Proof.
  intros (r & Hr & Hflag) Hown Hp. unfold free_limit_reached.
  rewrite Hr, Hflag. unfold owns_service in Hown.
  rewrite bool_decide_eq_false_2.
  - eapply hasExistingFreeService_true; eassumption.
  - intros Hempty. rewrite Hempty, lookup_empty in Hown. discriminate.
Qed.

(* ===================================================================== *)
(** ** The checks of the SDK *)
(* ===================================================================== *)

Lemma path_safe_app (a b : string) :
  path_safe (a +:+ b) = path_safe a && path_safe b.
Proof.
  unfold path_safe. induction a as [|c a IH]; simpl; [reflexivity|].
  rewrite IH. apply andb_assoc.
Qed.

Lemma valid_path_users_services (userId : string) :
  valid_path ("users/" +:+ userId +:+ "/services") = path_safe userId.
Proof.
  unfold valid_path. fold (path_safe ("users/" +:+ userId +:+ "/services")).
  rewrite !path_safe_app. cbn. apply andb_true_r.
Qed.

Lemma valid_path_service (userId serviceId : string) :
  valid_path ("users/" +:+ userId +:+ "/services/" +:+ serviceId)
  = path_safe userId && path_safe serviceId.
Proof.
  unfold valid_path.
  fold (path_safe ("users/" +:+ userId +:+ "/services/" +:+ serviceId)).
  rewrite !path_safe_app. cbn. reflexivity.
Qed.

Lemma valid_path_ticket (ticketId : string) :
  valid_path ("tickets/" +:+ ticketId) = path_safe ticketId.
Proof.
  unfold valid_path. fold (path_safe ("tickets/" +:+ ticketId)).
  rewrite !path_safe_app. cbn. reflexivity.
Qed.

Lemma valid_path_replies (ticketId : string) :
  valid_path ("tickets/" +:+ ticketId +:+ "/replies") = path_safe ticketId.
Proof.
  unfold valid_path. fold (path_safe ("tickets/" +:+ ticketId +:+ "/replies")).
  rewrite !path_safe_app. cbn. apply andb_true_r.
Qed.

Lemma valid_key_path_safe (key : string) :
  valid_key key = true → path_safe key = true.
Proof.
  unfold valid_key, path_safe. intros H. apply andb_true_iff in H as [_ H].
  rewrite forallb_forall in H. apply forallb_forall. intros c Hc.
  specialize (H c Hc). apply andb_true_iff in H as [H _]. exact H.
Qed.

Lemma store_key_path_safe (id : string) : store_key id → path_safe id = true.
Proof. intros [H _]. apply valid_key_path_safe, H. Qed.

Lemma store_key_truthy (id : string) : store_key id → truthy id = true.
Proof. intros [H _]. unfold valid_key in H. apply andb_true_iff in H as [H _]. exact H. Qed.

(* ===================================================================== *)
(** ** Ordering a service *)
(* ===================================================================== *)

(** C1, as stated, fails: a zero-price order whose plan carries no id is
    refused by the first guard of [orderService] with its own error, not
    with [LimitExceeded], although the limit is on and the user owns a free
    service. *)
Lemma orderService_free_order_without_plan_id :
  let p := mkOrderServicePayload free_plan_without_id "u1" "upi" in
  plan_price (osp_plan p) = 0%Z
  ∧ limit_flag_set limited_db
  ∧ owns_service limited_db "u1" "-S0" free_service
  ∧ svc_price free_service = Some 0%Z
  ∧ orderService an_order_env p limited_db = (Thrown InvalidRequest, limited_db)
  ∧ InvalidRequest ≠ LimitExceeded.
Proof.
  simpl. repeat split.
  - exists (mkRestrictions true). split; reflexivity.
  - discriminate.
Qed.

(** C1, amended: for every call of [orderService] with a non-empty userId
    and a plan that has a non-empty id and price 0, when
    [freeUserLimitEnabled] is set and the user already owns a service of
    price 0, whatever its status, the call throws [LimitExceeded] and the
    store is left as it was: no service and no invoice is written. *)
Theorem orderService_free_limit (env : OrderEnv) (p : OrderServicePayload) (db : DB)
    (sid : string) (s : Service) :
  truthy (osp_userId p) = true →
  truthy_opt (plan_id (osp_plan p)) = true →
  plan_price (osp_plan p) = 0%Z →
  limit_flag_set db →
  owns_service db (osp_userId p) sid s →
  svc_price s = Some 0%Z →
  orderService env p db = (Thrown LimitExceeded, db).
Proof.
  intros Hu Hp Hprice Hflag Hown Hfree.
  unfold orderService. rewrite Hu, Hp, Hprice. simpl.
  rewrite (free_limit_reached_true db _ sid s) by assumption.
  reflexivity.
Qed.

Lemma orderService_free_limit_witness :
  orderService an_order_env (mkOrderServicePayload free_plan "u1" "upi") limited_db
  = (Thrown LimitExceeded, limited_db).
Proof.
  apply (orderService_free_limit an_order_env
           (mkOrderServicePayload free_plan "u1" "upi") limited_db "-S0" free_service).
  - reflexivity.
  - reflexivity.
  - reflexivity.
  - exists (mkRestrictions true). split; reflexivity.
  - reflexivity.
  - reflexivity.
Defined.

(** The user's node after the service was written: the email is the one
    the store held before. *)
Lemma users_set_service (db : DB) (uid sid : string) (s : Service) :
  users (set_service db uid sid s) !! uid
  = Some (mkUser (user_email (default no_user (users db !! uid)))
                 (user_name (default no_user (users db !! uid)))
                 (<[sid := s]> (user_services (default no_user (users db !! uid))))).
Proof. unfold set_service. simpl. apply lookup_insert_eq. Qed.

Lemma email_of_default (db : DB) (uid : string) :
  user_email (default no_user (users db !! uid)) = email_of db uid.
Proof. unfold email_of. destruct (users db !! uid); reflexivity. Qed.

(** C2: every successful call of [orderService] stores the service it
    returns under the new key, as the store keeps it (without the features
    when the plan has none), and an invoice for it; for a plan of price 0
    the stored service is [Active] and the invoice [Paid], for any other
    price the stored service is [Pending] and the invoice [Unpaid]; in both
    cases the amount of the invoice is the price of the plan passed to the
    call. *)
Theorem orderService_success (env : OrderEnv) (p : OrderServicePayload) (db db' : DB)
    (serviceId : string) (service : Service) :
  orderService env p db = (Returned (serviceId, service), db') →
  let price := plan_price (osp_plan p) in
  ∃ stored,
    get_service db' (osp_userId p) serviceId = Some stored
    ∧ stored = as_stored service
    ∧ svc_price stored = Some price
    ∧ (∃ inv,
          kv_get (oe_invoiceKey env) (invoices db') = Some inv
          ∧ inv_serviceId inv = serviceId
          ∧ inv_userId inv = osp_userId p
          ∧ inv_amount inv = price
          ∧ (price = 0%Z → svc_status stored = Some Active ∧ inv_status inv = Paid)
          ∧ (price ≠ 0%Z → svc_status stored = Some Pending ∧ inv_status inv = Unpaid)).
Proof.
  unfold orderService. cbv zeta.
  destruct (negb (truthy (osp_userId p)) || negb (truthy_opt (plan_id (osp_plan p))));
    [discriminate|].
  destruct ((plan_price (osp_plan p) =? 0)%Z && free_limit_reached db (osp_userId p));
    [discriminate|].
  destruct (negb (valid_path ("users/" +:+ osp_userId p +:+ "/services")));
    [discriminate|].
  destruct (oe_serviceKey env) as [key|]; [|discriminate].
  destruct (negb (truthy key)); [discriminate|].
  rewrite users_set_service. cbn [ud_email].
  destruct (user_email (default no_user (users db !! osp_userId p))) as [email|];
    [|discriminate].
  intros H. injection H as <- <- <-. cbv zeta.
  eexists. split.
  - rewrite get_service_with_invoices.
    unfold get_service. rewrite get_services_set_service, lookup_insert_eq.
    reflexivity.
  - split; [reflexivity|]. split; [reflexivity|].
    eexists. split; [apply kv_get_set_eq|]. simpl.
    do 3 (split; [reflexivity|]). split.
    + intros ->. split; reflexivity.
    + intros Hne. apply Z.eqb_neq in Hne. rewrite Hne. split; reflexivity.
Qed.

Lemma orderService_success_witness :
  ∃ service db',
    orderService an_order_env (mkOrderServicePayload paid_plan "u1" "stripe") limited_db
    = (Returned ("-S1", service), db')
    ∧ get_service db' "u1" "-S1" = Some (as_stored service)
    ∧ ∃ inv,
        kv_get "-I1" (invoices db') = Some inv
        ∧ inv_amount inv = 499%Z
        ∧ svc_status (as_stored service) = Some Pending ∧ inv_status inv = Unpaid.
Proof.
  eexists _, _. split; [reflexivity|].
  destruct (orderService_success an_order_env
              (mkOrderServicePayload paid_plan "u1" "stripe") limited_db _ _ _ eq_refl)
    as (stored & Hs & -> & _ & inv & Hi & _ & _ & Ha & _ & Hp).
  split; [exact Hs|]. exists inv.
  destruct (Hp ltac:(discriminate)) as [H1 H2].
  split; [exact Hi|]. split; [exact Ha|]. split; [exact H1 | exact H2].
Defined.

(* ===================================================================== *)
(** ** The payment reconciler *)
(* ===================================================================== *)

Lemma set_invoice_status_idem (st : InvoiceStatus) (i : Invoice) :
  set_invoice_status st (set_invoice_status st i) = set_invoice_status st i.
Proof. reflexivity. Qed.

Lemma set_service_status_idem (st : ServiceStatus) (s : Service) :
  set_service_status st (set_service_status st s) = set_service_status st s.
Proof. reflexivity. Qed.

Lemma kv_update_idem {A : Type} (k : string) (f : A → A) (l : list (string * A)) :
  (∀ a, f (f a) = f a) → kv_update k f (kv_update k f l) = kv_update k f l.
Proof.
  intros Hf. unfold kv_update. rewrite List.map_map.
  apply List.map_ext. intros [k' v]. simpl.
  destruct (k' =? k) eqn:E; simpl; rewrite E; [rewrite Hf|]; reflexivity.
Qed.

Lemma filter_kv_update {A : Type} (P : A → bool) (k : string) (f : A → A)
    (l : list (string * A)) :
  (∀ a, P (f a) = P a) →
  List.filter (λ kv, P kv.2) (kv_update k f l)
  = kv_update k f (List.filter (λ kv, P kv.2) l).
Proof.
  intros HP. induction l as [|[k' v] l IH]; simpl; [reflexivity|].
  destruct (k' =? k) eqn:E; simpl.
  - rewrite HP. destruct (P v); simpl; rewrite ?E, IH; reflexivity.
  - destruct (P v); simpl; rewrite ?E, IH; reflexivity.
Qed.

Lemma invoices_of_service_kv_update (db : DB) (sid k : string) (st : InvoiceStatus) :
  List.filter (λ kv, inv_serviceId kv.2 =? sid)
              (kv_update k (set_invoice_status st) (invoices db))
  = kv_update k (set_invoice_status st) (invoices_of_service db sid).
Proof.
  unfold invoices_of_service.
  apply (filter_kv_update (λ i, inv_serviceId i =? sid)). reflexivity.
Qed.

(** The query result after the first invoice of the service was marked. *)
Lemma invoices_of_service_mark_paid (db : DB) (sid : string) :
  invoices_of_service (mark_first_invoice_paid db sid) sid
  = match invoices_of_service db sid with
    | (k, i) :: rest =>
        (k, set_invoice_status Paid i) :: kv_update k (set_invoice_status Paid) rest
    | [] => []
    end.
Proof.
  unfold mark_first_invoice_paid.
  destruct (invoices_of_service db sid) as [|[k i] rest] eqn:E; [exact E|].
  unfold invoices_of_service at 1. simpl.
  rewrite invoices_of_service_kv_update, E. simpl.
  rewrite String.eqb_refl. reflexivity.
Qed.

Lemma mark_first_invoice_paid_idem (db : DB) (sid : string) :
  mark_first_invoice_paid (mark_first_invoice_paid db sid) sid
  = mark_first_invoice_paid db sid.
Proof.
  unfold mark_first_invoice_paid at 1.
  rewrite invoices_of_service_mark_paid.
  unfold mark_first_invoice_paid.
  destruct (invoices_of_service db sid) as [|[k i] rest]; [reflexivity|].
  unfold with_invoices. simpl.
  rewrite kv_update_idem by apply set_invoice_status_idem. reflexivity.
Qed.

Lemma mark_first_invoice_paid_update_service (db : DB) (sid uid sid' : string)
    (f : Service → Service) :
  mark_first_invoice_paid (update_service db uid sid' f) sid
  = update_service (mark_first_invoice_paid db sid) uid sid' f.
Proof.
  unfold mark_first_invoice_paid.
  change (invoices_of_service (update_service db uid sid' f) sid)
    with (invoices_of_service db sid).
  destruct (invoices_of_service db sid) as [|[k i] rest]; reflexivity.
Qed.

Lemma set_service_twice (db : DB) (uid sid : string) (s s' : Service) :
  set_service (set_service db uid sid s) uid sid s' = set_service db uid sid s'.
Proof.
  unfold set_service, with_users. simpl.
  rewrite lookup_insert_eq. simpl.
  rewrite !insert_insert_eq. reflexivity.
Qed.

Lemma update_service_idem (db : DB) (uid sid : string) (f : Service → Service) :
  (∀ s, f (f s) = f s) →
  update_service (update_service db uid sid f) uid sid f = update_service db uid sid f.
Proof.
  intros Hf. unfold update_service at 1.
  rewrite get_services_update_service. simpl. rewrite Hf.
  unfold update_service. apply set_service_twice.
Qed.



Lemma kv_update_paid_Forall2 (k : string) (l : list (string * Invoice)) :
  List.Forall2 invoice_kept_or_paid l (kv_update k (set_invoice_status Paid) l).
Proof.
  induction l as [|[k' i] l IH]; simpl; constructor; [|exact IH].
  unfold invoice_kept_or_paid. destruct (k' =? k); simpl; auto.
Qed.

Lemma Forall2_invoice_kept (l : list (string * Invoice)) :
  List.Forall2 invoice_kept_or_paid l l.
Proof.
  induction l as [|kv l IH]; constructor; [|exact IH].
  unfold invoice_kept_or_paid. auto.
Qed.

Lemma mark_first_invoice_paid_invoices (db : DB) (sid : string) :
  List.Forall2 invoice_kept_or_paid (invoices db) (invoices (mark_first_invoice_paid db sid)).
Proof.
  unfold mark_first_invoice_paid.
  destruct (invoices_of_service db sid) as [|[k i] rest].
  - apply Forall2_invoice_kept.
  - apply kv_update_paid_Forall2.
Qed.

Section WebhookProperties.

Variable constructEvent : string → string → string → Outcome StripeEvent.

(** What the handler does with an authenticated successful-payment event:
    the invoice is marked first, and the service is set [Active] unless
    [ref] refuses its path. *)
Lemma POST_payment_event (req : Request) (db : DB) (webhookSecret : string)
    (ev : StripeEvent) (userId planId serviceId : string) :
  stripe_configured db webhookSecret →
  authenticate constructEvent req webhookSecret = Returned ev →
  payment_event ev userId planId serviceId →
  POST constructEvent req db
  = if path_safe userId && path_safe serviceId then
      (mkResponse 200 ReceivedBody,
       update_service (mark_first_invoice_paid db serviceId) userId serviceId
                      (set_service_status Active))
    else
      (mkResponse 500 (ErrorBody "Database error."), mark_first_invoice_paid db serviceId).
Proof.
  intros (sk & Hsec & Hsk & Hwh) Hauth (Hty & Hmd & Hu & Hp & Hs).
  unfold POST. rewrite Hsec, Hsk, Hwh. simpl. rewrite Hauth, Hty. simpl.
  rewrite Hmd. simpl. rewrite Hu, Hp, Hs. simpl.
  rewrite valid_path_service.
  destruct (path_safe userId && path_safe serviceId); reflexivity.
Qed.



(** C4: a request whose signature header is missing, or whose signature
    [constructEvent] refuses for the configured signing secret, gets an
    error response (400, or 500 when Stripe is not configured at all) and
    the store is left untouched. *)
Theorem POST_rejects_bad_signature (req : Request) (db : DB) :
  (signature_missing req
   ∨ ∃ sig webhookSecret message,
       req_signature req = Some sig
       ∧ (getStripeSecrets db).2 = Some webhookSecret
       ∧ constructEvent (req_body req) sig webhookSecret = Thrown message) →
  ∃ status error,
    POST constructEvent req db = (mkResponse status (ErrorBody error), db)
    ∧ (status = 400%Z ∨ status = 500%Z)
    ∧ (∀ webhookSecret, stripe_configured db webhookSecret → status = 400%Z).
Proof.
  intros Hbad. unfold POST, stripe_configured.
  destruct (getStripeSecrets db) as [[sk|] [wh|]] eqn:Hsec;
    try (exists 500%Z; eexists; split; [reflexivity|]; split; [right; reflexivity|];
         intros wh' (sk' & Heq & _); discriminate).
  destruct (negb (truthy sk) || negb (truthy wh)) eqn:Htr.
  - exists 500%Z. eexists. split; [reflexivity|]. split; [right; reflexivity|].
    intros wh' (sk' & Heq & Hsk & Hwh). injection Heq as <- <-.
    rewrite Hsk, Hwh in Htr. discriminate.
  - assert (Hauth : ∃ m, authenticate constructEvent req wh = Thrown m).
    { unfold authenticate. destruct Hbad as [Hmiss | (sig & wh' & m & Hsig & Hwh' & Hce)].
      - unfold signature_missing in Hmiss.
        destruct (req_signature req) as [sig|]; [|eauto].
        simpl in Hmiss. rewrite Hmiss. simpl. eauto.
      - rewrite Hsig. simpl in Hwh'. injection Hwh' as <-.
        destruct (negb (truthy sig)); eauto. }
    destruct Hauth as [m Hauth]. rewrite Hauth.
    exists 400%Z. eexists. split; [reflexivity|]. split; [left; reflexivity|].
    reflexivity.
Qed.

(** C5: an authenticated event of any type other than
    [checkout.session.completed] is acknowledged with 200
    [{received: true}] and changes nothing in the store. *)
Theorem POST_ignores_other_events (req : Request) (db : DB) (webhookSecret : string)
    (ev : StripeEvent) :
  stripe_configured db webhookSecret →
  authenticate constructEvent req webhookSecret = Returned ev →
  ev_type ev ≠ "checkout.session.completed" →
  POST constructEvent req db = (mkResponse 200 ReceivedBody, db).
Proof.
  intros (sk & Hsec & Hsk & Hwh) Hauth Hty.
  unfold POST. rewrite Hsec, Hsk, Hwh. simpl. rewrite Hauth.
  apply String.eqb_neq in Hty. rewrite Hty. reflexivity.
Qed.

End WebhookProperties.

(** The scenario of the specification: [u1] orders the plan of price 499,
    the payment is confirmed, and the same confirmation is delivered
    again. *)
Example paid_order_scenario :
  let req := mkRequest "paid" (Some "whsec") in
  let paid_db := (POST demo_constructEvent req pending_db).2 in
  svc_status <$> get_service pending_db "u1" "-S1" = Some (Some Pending)
  ∧ (λ i, (inv_status i, inv_amount i)) <$> kv_get "-I1" (invoices pending_db)
    = Some (Unpaid, 499%Z)
  ∧ svc_status <$> get_service paid_db "u1" "-S1" = Some (Some Active)
  ∧ (λ i, (inv_status i, inv_amount i)) <$> kv_get "-I1" (invoices paid_db)
    = Some (Paid, 499%Z)
  ∧ POST demo_constructEvent req paid_db = (mkResponse 200 ReceivedBody, paid_db).
Proof. cbv zeta. repeat split. Qed.



Lemma POST_rejects_bad_signature_witness :
  ∃ status error,
    POST demo_constructEvent (mkRequest "paid" (Some "forged")) pending_db
    = (mkResponse status (ErrorBody error), pending_db)
    ∧ (status = 400%Z ∨ status = 500%Z)
    ∧ (∀ webhookSecret, stripe_configured pending_db webhookSecret → status = 400%Z).
Proof.
  apply (POST_rejects_bad_signature demo_constructEvent
           (mkRequest "paid" (Some "forged")) pending_db).
  right. exists "forged", "whsec".
  eexists. repeat split; reflexivity.
Defined.

Lemma POST_ignores_other_events_witness :
  POST demo_constructEvent (mkRequest "created" (Some "whsec")) pending_db
  = (mkResponse 200 ReceivedBody, pending_db).
Proof.
  apply (POST_ignores_other_events demo_constructEvent
           (mkRequest "created" (Some "whsec")) pending_db "whsec"
           (mkStripeEvent "payment_intent.created" None)).
  - exists "sk_test". repeat split; reflexivity.
  - reflexivity.
  - discriminate.
Defined.

(* ===================================================================== *)
(** ** Administrative status change *)
(* ===================================================================== *)


Lemma updateServiceStatus_thrown (userId serviceId message : string)
    (status : ServiceStatus) (db db' : DB) :
  updateServiceStatus userId serviceId status db = (Thrown message, db') → db' = db.
Proof.
  unfold updateServiceStatus.
  destruct (negb (truthy userId) || negb (truthy serviceId));
    [intros H; injection H as _ <-; reflexivity|].
  cbv zeta.
  destruct (negb (valid_path ("users/" +:+ userId +:+ "/services/" +:+ serviceId)));
    [|discriminate].
  intros H. injection H as _ <-. reflexivity.
Qed.



(* ===================================================================== *)
(** ** Panel login *)
(* ===================================================================== *)

(** Credentials are issued exactly when both ids are non-empty, the
    service exists under the user and it has a subdomain: the status of the
    service is never read. *)
Lemma handleAquaPanelLogin_success (env : LoginEnv) (userId serviceId : string) (db : DB) :
  lr_success (handleAquaPanelLogin env userId serviceId db).1 = true
  ↔ truthy userId = true ∧ truthy serviceId = true
    ∧ ∃ s, get_service db userId serviceId = Some s
           ∧ truthy_opt (svc_subdomain s) = true.
Proof.
  unfold handleAquaPanelLogin.
  destruct (truthy userId), (truthy serviceId); simpl;
    try (split; [discriminate | intros (? & ? & _); discriminate]).
  destruct (get_service db userId serviceId) as [s|].
  - destruct (truthy_opt (svc_subdomain s)) eqn:E; simpl.
    + split; [eauto|reflexivity].
    + split; [discriminate|].
      intros (_ & _ & s' & Hs & Ht). injection Hs as <-.
      rewrite E in Ht. discriminate.
  - simpl. split; [discriminate|]. intros (_ & _ & s' & Hs & _). discriminate.
Qed.

(** C8, at the failing input: the service is suspended, yet the call
    succeeds, returns a fresh password and token and stores them under
    [pannelneed/shop]. *)
Theorem handleAquaPanelLogin_suspended_service :
  get_service suspended_db "u1" "-S7" = Some suspended_service
  ∧ svc_status suspended_service = Some Suspended
  ∧ handleAquaPanelLogin a_login_env "u1" "-S7" suspended_db
    = (mkLoginResult true (Some "shop") (Some (le_password a_login_env))
         (Some (le_token a_login_env)) "Temporary login session created.",
       with_pannelneed suspended_db
         {[ "shop" := mkPanelCredential (le_password a_login_env) (le_token a_login_env)
                        1700003600 "u1" "-S7" ]}).
Proof. repeat split. Qed.

(* ===================================================================== *)
(** ** The matcher decides the words of an expression *)
(* ===================================================================== *)

Lemma nullable_sound (r : regex) : nullable r = true → Matches r [].
Proof.
  induction r as [| |p|r1 IH1 r2 IH2|r1 IH1 r2 IH2|r IH]; simpl; intros H.
  - discriminate.
  - constructor.
  - discriminate.
  - apply andb_true_iff in H as [H1 H2].
    change (@nil ascii) with (@nil ascii ++ [])%list. constructor; auto.
  - apply orb_true_iff in H as [H|H]; [apply MAltL | apply MAltR]; auto.
  - constructor.
Qed.

Lemma deriv_sound (r : regex) (c : ascii) (l : list ascii) :
  Matches (deriv c r) l → Matches r (c :: l).
Proof.
  revert l.
  induction r as [| |p|r1 IH1 r2 IH2|r1 IH1 r2 IH2|r IH]; simpl; intros l H.
  - inversion H.
  - inversion H.
  - destruct (p c) eqn:E; inversion H; subst. constructor. exact E.
  - assert (Hcat : ∀ l', Matches (Cat (deriv c r1) r2) l' → Matches (Cat r1 r2) (c :: l')).
    { intros l' H'. inversion H' as [| |? ? l1 l2 H1 H2| | | |]; subst.
      change (c :: l1 ++ l2)%list with ((c :: l1) ++ l2)%list. constructor; auto. }
    destruct (nullable r1) eqn:E; [|auto].
    inversion H as [| | |? ? ? H'|? ? ? H'| |]; subst; [auto|].
    change (c :: l) with ([] ++ c :: l)%list. constructor; [|auto].
    apply nullable_sound, E.
  - inversion H as [| | |? ? ? H'|? ? ? H'| |]; subst;
      [apply MAltL | apply MAltR]; auto.
  - inversion H as [| |? ? l1 l2 H1 H2| | | |]; subst.
    change (c :: l1 ++ l2)%list with ((c :: l1) ++ l2)%list. constructor; auto.
Qed.

Lemma accepts_sound (r : regex) (l : list ascii) : accepts r l = true → Matches r l.
Proof.
  revert r. induction l as [|c l IH]; simpl; intros r H.
  - apply nullable_sound, H.
  - apply deriv_sound, IH, H.
Qed.

Lemma nullable_complete (r : regex) : Matches r [] → nullable r = true.
Proof.
  intros H. remember (@nil ascii) as l eqn:El.
  induction H as [|p c Hp|r1 r2 l1 l2 H1 IH1 H2 IH2|r1 r2 l H IH|r1 r2 l H IH
                  |r|r l1 l2 H1 IH1 H2 IH2]; simpl.
  - reflexivity.
  - discriminate.
  - apply List.app_eq_nil in El as [-> ->].
    rewrite IH1, IH2; reflexivity.
  - rewrite IH by assumption. reflexivity.
  - rewrite IH by assumption. apply orb_true_r.
  - reflexivity.
  - reflexivity.
Qed.

Lemma deriv_complete (r : regex) (c : ascii) (l : list ascii) :
  Matches r (c :: l) → Matches (deriv c r) l.
Proof.
  intros H. remember (c :: l) as w eqn:Ew. revert l Ew.
  induction H as [|p c0 Hp|r1 r2 l1 l2 H1 IH1 H2 IH2|r1 r2 w H IH|r1 r2 w H IH
                  |r|r l1 l2 H1 IH1 H2 IH2]; intros l Ew; simpl.
  - discriminate.
  - injection Ew as -> <-. rewrite Hp. constructor.
  - destruct l1 as [|c1 l1]; simpl in Ew.
    + rewrite (nullable_complete r1 H1). apply MAltR. auto.
    + injection Ew as -> <-.
      destruct (nullable r1); [apply MAltL|]; constructor; auto.
  - apply MAltL. auto.
  - apply MAltR. auto.
  - discriminate.
  - destruct l1 as [|c1 l1]; simpl in Ew.
    + auto.
    + injection Ew as -> <-. constructor; auto.
Qed.

Lemma accepts_complete (r : regex) (l : list ascii) : Matches r l → accepts r l = true.
Proof.
  revert r. induction l as [|c l IH]; simpl; intros r H.
  - apply nullable_complete, H.
  - apply IH, deriv_complete, H.
Qed.

(** The matcher decides membership in the language of the expression. *)
Lemma regex_test_Matches (r : regex) (s : string) :
  regex_test r s = true ↔ Matches r (list_ascii_of_string s).
Proof. split; [apply accepts_sound | apply accepts_complete]. Qed.

(** Induction over the iterations of a starred expression. *)
Lemma Matches_Star_ind (r : regex) (P : list ascii → Prop) :
  P [] →
  (∀ l1 l2, Matches r l1 → P l2 → P (l1 ++ l2)%list) →
  ∀ l, Matches (Star r) l → P l.
Proof.
  intros Hnil Happ l H. remember (Star r) as r' eqn:Er.
  induction H; try discriminate.
  - exact Hnil.
  - injection Er as ->. apply Happ; auto.
Qed.

(* ===================================================================== *)
(** ** The words of the subdomain pattern *)
(* ===================================================================== *)

Lemma ends_alnum_app (l1 l2 : list ascii) : ends_alnum l2 → ends_alnum (l1 ++ l2)%list.
Proof.
  intros (front & c & -> & Hc). exists (l1 ++ front)%list, c.
  split; [apply List.app_assoc | exact Hc].
Qed.

Lemma Forall_alnum_ends (c : ascii) (l : list ascii) :
  List.Forall (λ x, lower_alnum x = true) (c :: l) → ends_alnum (c :: l).
Proof.
  intros H.
  destruct (@List.exists_last _ (c :: l) ltac:(discriminate)) as (front & x & E).
  exists front, x. split; [exact E|].
  rewrite E in H. apply List.Forall_app in H as [_ H].
  inversion H; assumption.
Qed.

Lemma Matches_alnum_star (l : list ascii) :
  Matches (Star (Class lower_alnum)) l → List.Forall (λ x, lower_alnum x = true) l.
Proof.
  apply Matches_Star_ind.
  - constructor.
  - intros l1 l2 H1 H2. inversion H1; subst. constructor; assumption.
Qed.

(** [[a-z0-9]+] *)
Lemma Matches_alnum_run (l : list ascii) :
  Matches (Plus (Class lower_alnum)) l →
  ∃ c rest, l = c :: rest ∧ List.Forall (λ x, lower_alnum x = true) (c :: rest).
Proof.
  intros H. inversion H as [| |? ? l1 l2 H1 H2| | | |]; subst.
  inversion H1; subst. eexists _, _. split; [reflexivity|].
  constructor; [assumption|]. apply Matches_alnum_star, H2.
Qed.

Lemma Forall_label_char (l : list ascii) :
  List.Forall (λ x, lower_alnum x = true) l → List.Forall label_char l.
Proof. apply List.Forall_impl. intros c H. left. exact H. Qed.

(** [(?:-[a-z0-9]+)*] *)
Lemma Matches_hyphen_groups (l : list ascii) :
  Matches (Star (Cat (Class hyphen) (Plus (Class lower_alnum)))) l →
  List.Forall label_char l ∧ (l = [] ∨ ends_alnum l).
Proof.
  revert l.
  apply (Matches_Star_ind _ (λ l, List.Forall label_char l ∧ (l = [] ∨ ends_alnum l))).
  - split; [constructor | left; reflexivity].
  - intros l1 l2 H1 [Hall Hend].
    inversion H1 as [| |? ? h run Hh Hrun| | | |]; subst.
    inversion Hh; subst.
    apply Matches_alnum_run in Hrun as (c0 & rest & -> & Hrun).
    split.
    + apply List.Forall_app. split; [|exact Hall].
      constructor; [right; assumption|]. apply Forall_label_char, Hrun.
    + right. destruct Hend as [-> | Hend].
      * rewrite List.app_nil_r.
        apply (ends_alnum_app [_] (c0 :: rest)), Forall_alnum_ends, Hrun.
      * apply ends_alnum_app, Hend.
Qed.

Lemma Matches_subdomain_pattern (l : list ascii) :
  Matches subdomain_pattern l →
  List.Forall label_char l ∧ starts_alnum l ∧ ends_alnum l.
Proof.
  intros H. inversion H as [| |? ? l1 l2 H1 H2| | | |]; subst.
  apply Matches_alnum_run in H1 as (c & rest & -> & Hrun).
  apply Matches_hyphen_groups in H2 as [Hall Hend].
  split; [|split].
  - apply List.Forall_app. split; [apply Forall_label_char, Hrun | exact Hall].
  - exists c, (rest ++ l2)%list. split; [reflexivity|]. inversion Hrun; assumption.
  - destruct Hend as [-> | Hend].
    + rewrite List.app_nil_r. apply Forall_alnum_ends, Hrun.
    + apply ends_alnum_app, Hend.
Qed.

Lemma list_ascii_of_string_app (s1 s2 : string) :
  list_ascii_of_string (s1 +:+ s2)
  = (list_ascii_of_string s1 ++ list_ascii_of_string s2)%list.
Proof. induction s1 as [|c s1 IH]; simpl; [reflexivity | rewrite IH; reflexivity]. Qed.

(** A label with a foreign character or with a hyphen at either end does
    not pass the pattern. *)
Lemma regex_test_violation (label : string) :
  has_foreign_character label ∨ leading_hyphen label ∨ trailing_hyphen label →
  regex_test subdomain_pattern label = false.
Proof.
  intros Hv. destruct (regex_test subdomain_pattern label) eqn:E; [|reflexivity].
  exfalso. apply accepts_sound, Matches_subdomain_pattern in E.
  destruct E as (Hall & (c & rest & Hstart & Hc) & (front & c' & Hend & Hc')).
  destruct Hv as [(x & Hin & Hx1 & Hx2) | [[rest' ->] | [front' ->]]].
  - rewrite List.Forall_forall in Hall. destruct (Hall x Hin); congruence.
  - simpl in Hstart. injection Hstart as <- _. discriminate.
  - rewrite list_ascii_of_string_app in Hend. simpl in Hend.
    apply List.app_inj_tail in Hend as [_ <-]. discriminate.
Qed.

(** The characters of a label are ASCII characters, one code unit each, so
    a label that passes the pattern has as many code units as bytes. *)
Lemma code_units_label_char (c : ascii) : label_char c → code_units c = 1%nat.
Proof.
  intros [H | H]; destruct c as [[] [] [] [] [] [] [] []];
    vm_compute in H; try discriminate H; reflexivity.
Qed.

Lemma js_length_label_chars (s : string) :
  List.Forall label_char (list_ascii_of_string s) → js_length s = String.length s.
Proof.
  induction s as [|c s IH]; simpl; [reflexivity|].
  intros H. inversion H as [|? ? Hc Hs]; subst.
  rewrite (code_units_label_char c Hc), (IH Hs). reflexivity.
Qed.

Lemma js_length_label (label : string) :
  regex_test subdomain_pattern label = true → js_length label = String.length label.
Proof.
  intros E. apply accepts_sound, Matches_subdomain_pattern in E as [Hall _].
  apply js_length_label_chars, Hall.
Qed.

Lemma subdomain_issues_violation (label : string) :
  label_violation label → subdomain_issues label ≠ [].
Proof.
  unfold subdomain_issues. intros Hv.
  destruct (regex_test subdomain_pattern label) eqn:E.
  - rewrite (js_length_label label E).
    destruct Hv as [H | [H | H]].
    + apply Nat.ltb_lt in H. rewrite H. discriminate.
    + apply Nat.ltb_lt in H. rewrite H.
      destruct (String.length label <? 3)%nat; discriminate.
    + rewrite (regex_test_violation label H) in E. discriminate.
  - destruct (js_length label <? 3)%nat, (30 <? js_length label)%nat; discriminate.
Qed.

(* ===================================================================== *)
(** ** Provisioning a subdomain *)
(* ===================================================================== *)

(** C6: an input whose label is shorter than 3 or longer than 30
    characters, holds a character other than [a-z], [0-9] and [-], or
    starts or ends with a hyphen makes [createSubdomain] throw its
    validation error; the provisioning API is not called and the store is
    not written. *)
Theorem createSubdomain_rejects_invalid_label (env : ProvisionEnv)
    (input : CreateSubdomainInput) (db : DB) :
  label_violation (csi_subdomain input) →
  ∃ errs,
    createSubdomain env input db
    = (Thrown ("Invalid input: " +:+ stringify_fieldErrors errs), db, [])
    ∧ ∃ issues, errs !! 0%nat = Some ("subdomain", issues).
Proof.
  intros Hv. apply subdomain_issues_violation in Hv.
  unfold createSubdomain, safeParse, fieldErrors. simpl.
  rewrite bool_decide_eq_false_2 by exact Hv. simpl.
  eexists. split; [reflexivity|]. simpl. eauto.
Qed.

Lemma createSubdomain_rejects_invalid_label_witness :
  ∃ errs,
    createSubdomain (a_provision_env "-K1") (mkCreateSubdomainInput "My Site" "u1" None)
                    provision_db
    = (Thrown ("Invalid input: " +:+ stringify_fieldErrors errs), provision_db, [])
    ∧ ∃ issues, errs !! 0%nat = Some ("subdomain", issues).
Proof.
  apply (createSubdomain_rejects_invalid_label (a_provision_env "-K1")
           (mkCreateSubdomainInput "My Site" "u1" None) provision_db).
  right. right. left. exists " "%char. simpl. repeat split. tauto.
Defined.

(** The schema lets well-formed labels through, and [createSubdomain] then
    runs the flow on them. *)
Example subdomain_pattern_examples :
  List.map (regex_test subdomain_pattern)
           ["shop"; "my-site-1"; "a1b"; "My Site"; "-ab"; "ab-"; "a--b"; ""]
  = [true; true; true; false; false; false; false; false].
Proof. reflexivity. Qed.

Example createSubdomain_shop :
  createSubdomain (a_provision_env "-K1") (mkCreateSubdomainInput "shop" "u1" (Some "-S7"))
                  provision_db
  = (Returned (mkCreateSubdomainOutput true
                 "Subdomain 'shop.example.com' has been successfully created and is now active."
                 (Some "shop.example.com")),
     shop_db,
     [mkApiCall "shop" "example.com" "shop.example.com"]).
Proof. reflexivity. Qed.

Lemma subdomains_named_In (db : DB) (name key : string) (record : Subdomain) :
  In (key, record) (subdomains db) → sub_subdomain record = name →
  subdomains_named db name ≠ [].
Proof.
  intros Hin Hname Hnone.
  assert (H : In (key, record) (subdomains_named db name)).
  { apply List.filter_In. split; [exact Hin|]. simpl. apply String.eqb_eq, Hname. }
  rewrite Hnone in H. exact H.
Qed.

Lemma subdomains_named_nil (db : DB) (name : string) :
  subdomains_named db name = [] → ¬ In name (subdomain_names db).
Proof.
  intros Hnone Hin. unfold subdomain_names in Hin.
  apply List.in_map_iff in Hin as ([key record] & Hname & Hin).
  exact (subdomains_named_In db name key record Hin Hname Hnone).
Qed.

(** C7: when the root domain is configured and a Subdomain record already
    carries the name [label.rootDomain], [createSubdomainFlow] answers with
    the already-taken failure, makes no call to the provisioning API and
    leaves the store, Subdomain records and services alike, as it was. *)
Theorem createSubdomainFlow_already_taken (env : ProvisionEnv)
    (input : CreateSubdomainInput) (db : DB) (rootDomain key : string) (record : Subdomain) :
  settings_domain db = Some (mkDomainSettings rootDomain) →
  truthy rootDomain = true →
  In (key, record) (subdomains db) →
  sub_subdomain record = csi_subdomain input +:+ "." +:+ rootDomain →
  createSubdomainFlow env input db
  = (Returned (mkCreateSubdomainOutput false
                 (AlreadyTaken (csi_subdomain input +:+ "." +:+ rootDomain)) None),
     db, []).
Proof.
  intros Hdom Htr Hin Hname. unfold createSubdomainFlow.
  rewrite Hdom. simpl. rewrite Htr. simpl.
  pose proof (subdomains_named_In db _ key record Hin Hname) as Hne.
  destruct (subdomains_named db (csi_subdomain input +:+ "." +:+ rootDomain));
    [contradiction | reflexivity].
Qed.

Lemma createSubdomainFlow_already_taken_witness :
  createSubdomainFlow (a_provision_env "-K2") (mkCreateSubdomainInput "shop" "u2" None) shop_db
  = (Returned (mkCreateSubdomainOutput false (AlreadyTaken "shop.example.com") None),
     shop_db, []).
Proof.
  apply (createSubdomainFlow_already_taken (a_provision_env "-K2")
           (mkCreateSubdomainInput "shop" "u2" None) shop_db "example.com" "-K1"
           (mkSubdomain "u1" "shop.example.com" "2024-03-01T00:00:00.000Z" "Active"
                        (Some "-S7"))).
  - reflexivity.
  - reflexivity.
  - left. reflexivity.
  - reflexivity.
Defined.

(** C9, at the failing input: starting without Subdomain records, two
    provisioning operations with the labels [shop] and [shop2] and the same
    serviceId [-S7] both succeed, and the state they reach holds two
    Subdomain records that carry that serviceId. *)
Theorem createSubdomainFlow_two_subdomains_one_service :
  let first := createSubdomainFlow (a_provision_env "-K1")
                 (mkCreateSubdomainInput "shop" "u1" (Some "-S7")) provision_db in
  let second := createSubdomainFlow (a_provision_env "-K2")
                  (mkCreateSubdomainInput "shop2" "u1" (Some "-S7")) first.1.2 in
  subdomains provision_db = []
  ∧ (∃ out, first.1.1 = Returned out ∧ cso_success out = true)
  ∧ (∃ out, second.1.1 = Returned out ∧ cso_success out = true)
  ∧ subdomains second.1.2
    = [("-K1", mkSubdomain "u1" "shop.example.com" "2024-03-01T00:00:00.000Z" "Active"
                           (Some "-S7"));
       ("-K2", mkSubdomain "u1" "shop2.example.com" "2024-03-01T00:00:00.000Z" "Active"
                           (Some "-S7"))]
  ∧ provisioned_from provision_db second.1.2
  ∧ ¬ one_subdomain_per_service second.1.2.
Proof.
  cbv zeta. split; [reflexivity|].
  do 2 (split; [eexists; split; reflexivity|]).
  split; [reflexivity|]. split.
  - apply prov_step, prov_step, prov_start.
  - intros H.
    specialize (H 0%nat 1%nat _ _ _ _ "-S7" eq_refl eq_refl eq_refl eq_refl eq_refl).
    discriminate.
Qed.

Lemma In_names_kv_set (k : string) (v : Subdomain) (l : list (string * Subdomain))
    (name : string) :
  In name (List.map (λ kv, sub_subdomain kv.2) (kv_set k v l)) →
  name = sub_subdomain v ∨ In name (List.map (λ kv, sub_subdomain kv.2) l).
Proof.
  induction l as [|[k' v'] l IH]; simpl.
  - intros [<-|[]]. left. reflexivity.
  - destruct (k' =? k); simpl.
    + intros [<-|H]; [left; reflexivity | right; right; exact H].
    + intros [<-|H]; [right; left; reflexivity|].
      destruct (IH H) as [->|H']; [left; reflexivity | right; right; exact H'].
Qed.

Lemma NoDup_names_kv_set (k : string) (v : Subdomain) (l : list (string * Subdomain)) :
  List.NoDup (List.map (λ kv, sub_subdomain kv.2) l) →
  ¬ In (sub_subdomain v) (List.map (λ kv, sub_subdomain kv.2) l) →
  List.NoDup (List.map (λ kv, sub_subdomain kv.2) (kv_set k v l)).
Proof.
  induction l as [|[k' v'] l IH]; simpl; intros Hnd Hfresh.
  - constructor; [intros [] | constructor].
  - apply List.NoDup_cons_iff in Hnd as [Hnotin Hnd].
    destruct (k' =? k); simpl.
    + constructor; [tauto | exact Hnd].
    + constructor.
      * intros Hin. apply In_names_kv_set in Hin as [Heq|Hin]; [|tauto].
        apply Hfresh. left. exact Heq.
      * apply IH; [exact Hnd | tauto].
Qed.

Lemma subdomains_update_service (db : DB) (uid sid : string) (f : Service → Service) :
  subdomains (update_service db uid sid f) = subdomains db.
Proof. reflexivity. Qed.

(** One provisioning operation keeps the names distinct. *)
Lemma createSubdomainFlow_names_unique (env : ProvisionEnv) (input : CreateSubdomainInput)
    (db : DB) :
  names_unique db → names_unique (createSubdomainFlow env input db).1.2.
Proof.
  intros Hu. unfold createSubdomainFlow.
  destruct (settings_domain db) as [settings|]; [|exact Hu].
  destruct (negb (truthy (domain settings))); [exact Hu|]. cbv zeta.
  destruct (subdomains_named db (csi_subdomain input +:+ "." +:+ domain settings))
    as [|taken others] eqn:Hq; [|exact Hu].
  destruct (createSubdomainOnServer env (csi_subdomain input) (domain settings))
    as [creationResult calls].
  destruct (negb (tool_success creationResult)); [exact Hu|]. simpl.
  assert (Hnew : names_unique
            (with_subdomains db
               (kv_set (pe_pushKey env)
                  (mkSubdomain (csi_userId input)
                     (csi_subdomain input +:+ "." +:+ domain settings)
                     (pe_createdAt env) "Active" (csi_serviceId input))
                  (subdomains db)))).
  { unfold names_unique, subdomain_names. simpl.
    apply NoDup_names_kv_set; [exact Hu|]. simpl.
    apply subdomains_named_nil, Hq. }
  destruct (csi_serviceId input) as [serviceId|]; [|exact Hu].
  destruct (truthy serviceId); [|exact Hnew].
  destruct (negb (valid_path ("users/" +:+ csi_userId input +:+ "/services/" +:+ serviceId)));
    exact Hnew.
Qed.

(** X22: what the flow does keep: in every state that a sequence of
    provisioning operations reaches from a store whose Subdomain records
    have pairwise distinct fully-qualified names, the names are still
    pairwise distinct. *)
Lemma provisioned_names_unique (db0 db : DB) :
  names_unique db0 → provisioned_from db0 db → names_unique db.
Proof.
  intros H0 Hreach. induction Hreach as [|env input db Hreach IH].
  - exact H0.
  - apply createSubdomainFlow_names_unique, IH.
Qed.

Example provisioned_names_unique_shop2 : names_unique shop2_db.
Proof.
  apply (provisioned_names_unique provision_db shop2_db).
  - constructor.
  - apply prov_step, prov_step, prov_start.
Defined.

(* ===================================================================== *)
(** ** More about ordering a service *)
(* ===================================================================== *)

Lemma hasExistingFreeService_inv (services : gmap string Service) :
  hasExistingFreeService services = true →
  ∃ sid s, services !! sid = Some s ∧ svc_price s = Some 0%Z.
Proof.
  unfold hasExistingFreeService. intros H.
  apply existsb_exists in H as ([sid s] & Hin & Hp).
  exists sid, s. split.
  - apply elem_of_map_to_list, list_elem_of_In. exact Hin.
  - apply bool_decide_eq_true in Hp. exact Hp.
Qed.

(** The restriction fires exactly when the flag is set and the user owns a
    service of price 0. *)
Lemma free_limit_reached_iff (db : DB) (userId : string) :
  free_limit_reached db userId = true
  ↔ limit_flag_set db
    ∧ ∃ sid s, owns_service db userId sid s ∧ svc_price s = Some 0%Z.
Proof.
  split.
  - unfold free_limit_reached, limit_flag_set.
    destruct (settings_restrictions db) as [r|]; [|discriminate].
    destruct (freeUserLimitEnabled r) eqn:Hflag; [|discriminate].
    destruct (bool_decide (get_services db userId = ∅)); [discriminate|].
    intros H. split; [eauto|]. apply hasExistingFreeService_inv, H.
  - intros (Hflag & sid & s & Hown & Hp).
    eapply free_limit_reached_true; eassumption.
Qed.

Lemma kv_get_set_ne {A : Type} (k k' : string) (v : A) (l : list (string * A)) :
  k' ≠ k → kv_get k' (kv_set k v l) = kv_get k' l.
Proof.
  intros Hne. induction l as [|[k0 v0] l IH]; simpl.
  - apply String.eqb_neq in Hne. rewrite String.eqb_sym, Hne. reflexivity.
  - destruct (k0 =? k) eqn:E; simpl.
    + apply String.eqb_eq in E. subst k0.
      apply not_eq_sym, String.eqb_neq in Hne. rewrite Hne. reflexivity.
    + destruct (k0 =? k'); [reflexivity | exact IH].
Qed.

Lemma get_services_set_service_other (db : DB) (uid sid uid' sid' : string) (s : Service) :
  (uid', sid') ≠ (uid, sid) →
  get_services (set_service db uid sid s) uid' !! sid' = get_services db uid' !! sid'.
Proof.
  intros Hne. destruct (decide (uid' = uid)) as [->|Hu].
  - rewrite get_services_set_service. apply lookup_insert_ne. congruence.
  - unfold get_services, set_service. simpl. rewrite lookup_insert_ne by congruence.
    reflexivity.
Qed.

(** The outcomes of [orderService], with the path check and the email read
    off the store the call started from. *)
Lemma orderService_outcomes (env : OrderEnv) (p : OrderServicePayload) (db : DB) :
  let plan := osp_plan p in
  let userId := osp_userId p in
  let isFreePlan := (plan_price plan =? 0)%Z in
  orderService env p db
  = if negb (truthy userId) || negb (truthy_opt (plan_id plan)) then
      (Thrown InvalidRequest, db)
    else if isFreePlan && free_limit_reached db userId then (Thrown LimitExceeded, db)
    else if negb (path_safe userId) then
      (Thrown (InvalidPath ("users/" +:+ userId +:+ "/services")), db)
    else
      match oe_serviceKey env with
      | None => (Thrown KeyGenerationFailed, db)
      | Some serviceId =>
          if negb (truthy serviceId) then (Thrown KeyGenerationFailed, db)
          else
            let serviceData :=
              mkService (Some (plan_name plan)) (Some (plan_price plan))
                        (Some (plan_features plan)) (plan_storage plan)
                        (Some serviceId) (plan_id plan) (Some (oe_orderDate env))
                        (Some (if isFreePlan then Active else Pending)) None None in
            let db1 := set_service db userId serviceId (as_stored serviceData) in
            match email_of db userId with
            | None =>
                (Thrown (ContainsUndefined
                           ("invoices." +:+ oe_invoiceKey env +:+ ".userEmail")), db1)
            | Some email =>
                let userDetails :=
                  mkUserDetails (Some email)
                    (if truthy_opt (user_name (default no_user (users db !! userId)))
                     then default "" (user_name (default no_user (users db !! userId)))
                     else "Valued Customer") in
                (Returned (serviceId, serviceData),
                 with_invoices db1
                   (kv_set (oe_invoiceKey env)
                      (mkInvoice userId serviceId (plan_name plan) (plan_price plan)
                                 (if isFreePlan then Paid else Unpaid)
                                 (oe_invoiceDate env) (oe_dueDate env)
                                 (Some email) (settings_invoice db) userDetails)
                      (invoices db)))
            end
      end.
Proof.
  cbv zeta. unfold orderService. cbv zeta.
  destruct (negb (truthy (osp_userId p)) || negb (truthy_opt (plan_id (osp_plan p))));
    [reflexivity|].
  destruct ((plan_price (osp_plan p) =? 0)%Z && free_limit_reached db (osp_userId p));
    [reflexivity|].
  rewrite valid_path_users_services.
  destruct (negb (path_safe (osp_userId p))); [reflexivity|].
  destruct (oe_serviceKey env) as [key|]; [|reflexivity].
  destruct (negb (truthy key)); [reflexivity|].
  rewrite users_set_service. cbn [ud_email user_email user_name].
  rewrite email_of_default.
  destruct (email_of db (osp_userId p)) as [email|]; reflexivity.
Qed.

(** X1: a call of [orderService] that throws has written no invoice, and
    it has written nothing at all when the node of the user has an email.
    Without an email there, a call that gets past its checks throws at the
    invoice, which would carry an [undefined] email, after the service was
    stored: the store is then the old one plus the new service, left
    without an invoice. *)
Theorem orderService_failure (env : OrderEnv) (p : OrderServicePayload)
    (db db' : DB) (message : string) :
  orderService env p db = (Thrown message, db') →
  invoices db' = invoices db
  ∧ (∀ email, email_of db (osp_userId p) = Some email → db' = db)
  ∧ (db' = db
     ∨ (email_of db (osp_userId p) = None
        ∧ ∃ serviceId stored,
            oe_serviceKey env = Some serviceId
            ∧ db' = set_service db (osp_userId p) serviceId stored
            ∧ svc_id stored = Some serviceId
            ∧ svc_planId stored = plan_id (osp_plan p))).
Proof.
  rewrite orderService_outcomes. cbv zeta.
  destruct (negb (truthy (osp_userId p)) || negb (truthy_opt (plan_id (osp_plan p))));
    [intros H; injection H as _ <-; auto|].
  destruct ((plan_price (osp_plan p) =? 0)%Z && free_limit_reached db (osp_userId p));
    [intros H; injection H as _ <-; auto|].
  destruct (negb (path_safe (osp_userId p))); [intros H; injection H as _ <-; auto|].
  destruct (oe_serviceKey env) as [key|]; [|intros H; injection H as _ <-; auto].
  destruct (negb (truthy key)); [intros H; injection H as _ <-; auto|].
  destruct (email_of db (osp_userId p)) as [email|]; [discriminate|].
  intros H. injection H as _ <-.
  split; [reflexivity|]. split; [discriminate|].
  right. split; [reflexivity|]. eexists key, _.
  split; [reflexivity|]. split; [reflexivity|]. split; reflexivity.
Qed.

Lemma orderService_failure_witness :
  let r := orderService an_order_env (mkOrderServicePayload paid_plan "u9" "upi") limited_db in
  email_of limited_db "u9" = None
  ∧ (∃ message, r.1 = Thrown message)
  ∧ invoices r.2 = invoices limited_db
  ∧ svc_status <$> get_service r.2 "u9" "-S1" = Some (Some Pending).
Proof.
  intros r.
  destruct (orderService_failure an_order_env (mkOrderServicePayload paid_plan "u9" "upi")
              limited_db r.2 _ eq_refl) as (Hinv & _ & _).
  split; [reflexivity|]. split; [eexists; reflexivity|].
  split; [exact Hinv | reflexivity].
Defined.

(** X2: for a userId that is a key of the store, [orderService] returns
    exactly when the plan id is non-empty, [push] gave a key, the node of
    the user has an email, and the free-plan restriction does not apply;
    the restriction applies only to a plan of price 0, with the flag set,
    for a user who owns a service of price 0.  A paid order is never
    refused by it, nor is a free order while the flag is off or missing. *)
Theorem orderService_returns_iff (env : OrderEnv) (p : OrderServicePayload) (db : DB) :
  store_key (osp_userId p) →
  (∃ r db', orderService env p db = (Returned r, db'))
  ↔ truthy_opt (plan_id (osp_plan p)) = true
    ∧ truthy_opt (oe_serviceKey env) = true
    ∧ (∃ email, email_of db (osp_userId p) = Some email)
    ∧ ¬ (plan_price (osp_plan p) = 0%Z
         ∧ limit_flag_set db
         ∧ ∃ sid s, owns_service db (osp_userId p) sid s ∧ svc_price s = Some 0%Z).
Proof.
  intros Hkey. rewrite orderService_outcomes. cbv zeta.
  rewrite (store_key_truthy _ Hkey), (store_key_path_safe _ Hkey). simpl.
  destruct (truthy_opt (plan_id (osp_plan p))); simpl;
    [|split; [intros (? & ? & ?); discriminate | intros (? & _); discriminate]].
  assert (Hlimit :
    ((plan_price (osp_plan p) =? 0)%Z && free_limit_reached db (osp_userId p)) = true
    ↔ plan_price (osp_plan p) = 0%Z
      ∧ limit_flag_set db
      ∧ ∃ sid s, owns_service db (osp_userId p) sid s ∧ svc_price s = Some 0%Z).
  { rewrite andb_true_iff, Z.eqb_eq, free_limit_reached_iff. reflexivity. }
  destruct ((plan_price (osp_plan p) =? 0)%Z && free_limit_reached db (osp_userId p)).
  { split; [intros (? & ? & ?); discriminate|].
    intros (_ & _ & _ & Hn). exfalso. apply Hn, Hlimit. reflexivity. }
  assert (Hn : ¬ (plan_price (osp_plan p) = 0%Z
                  ∧ limit_flag_set db
                  ∧ ∃ sid s, owns_service db (osp_userId p) sid s
                             ∧ svc_price s = Some 0%Z)).
  { intros H. apply Hlimit in H. discriminate. }
  destruct (oe_serviceKey env) as [key|]; simpl;
    [|split; [intros (? & ? & ?); discriminate | intros (_ & ? & _); discriminate]].
  destruct (truthy key); simpl;
    [|split; [intros (? & ? & ?); discriminate | intros (_ & ? & _); discriminate]].
  destruct (email_of db (osp_userId p)) as [email|].
  - split; [|eauto]. intros _. repeat split; eauto.
  - split; [intros (? & ? & ?); discriminate|].
    intros (_ & _ & (? & ?) & _). discriminate.
Qed.

Lemma orderService_returns_iff_witness :
  ∃ r db',
    orderService an_order_env (mkOrderServicePayload paid_plan "u1" "stripe") limited_db
    = (Returned r, db').
Proof.
  apply (orderService_returns_iff an_order_env
           (mkOrderServicePayload paid_plan "u1" "stripe") limited_db).
  - split; [reflexivity | simpl; lia].
  - split; [reflexivity|]. split; [reflexivity|]. split; [eexists; reflexivity|].
    intros [H _]. discriminate H.
Defined.

(** X3: with the limit switched on, a free order that went through blocks
    the next one: any further order of a plan of price 0 (with an id) by
    the same user, on the store the first order left, throws
    [LimitExceeded] and writes nothing. *)
Theorem orderService_second_free_order (env1 env2 : OrderEnv) (p1 p2 : OrderServicePayload)
    (db db1 : DB) (r : string * Service) :
  limit_flag_set db →
  plan_price (osp_plan p1) = 0%Z →
  orderService env1 p1 db = (Returned r, db1) →
  osp_userId p2 = osp_userId p1 →
  plan_price (osp_plan p2) = 0%Z →
  truthy_opt (plan_id (osp_plan p2)) = true →
  orderService env2 p2 db1 = (Thrown LimitExceeded, db1).
Proof.
  intros Hflag Hfree1 Hfirst Huser Hfree2 Hid2.
  assert (Hstate : truthy (osp_userId p1) = true
                   ∧ limit_flag_set db1
                   ∧ ∃ sid s, owns_service db1 (osp_userId p1) sid s
                              ∧ svc_price s = Some 0%Z).
  { revert Hfirst. rewrite orderService_outcomes. cbv zeta.
    destruct (truthy (osp_userId p1)); simpl; [|discriminate].
    destruct (truthy_opt (plan_id (osp_plan p1))); simpl; [|discriminate].
    destruct ((plan_price (osp_plan p1) =? 0)%Z && free_limit_reached db (osp_userId p1));
      [discriminate|].
    destruct (negb (path_safe (osp_userId p1))); [discriminate|].
    destruct (oe_serviceKey env1) as [key|]; [|discriminate].
    destruct (negb (truthy key)); [discriminate|].
    destruct (email_of db (osp_userId p1)) as [email|]; [|discriminate].
    intros H. injection H as _ <-. split; [reflexivity|]. split; [exact Hflag|].
    eexists key, _. split.
    - unfold owns_service.
      change (get_services (with_invoices ?d ?l) ?u) with (get_services d u).
      rewrite get_services_set_service. apply lookup_insert_eq.
    - simpl. rewrite Hfree1. reflexivity. }
  destruct Hstate as (Hu & Hflag1 & sid & s & Hown & Hs).
  unfold orderService. rewrite Huser, Hu, Hid2, Hfree2. simpl.
  rewrite (free_limit_reached_true db1 _ sid s) by assumption.
  reflexivity.
Qed.

Lemma orderService_second_free_order_witness :
  let first :=
    orderService an_order_env (mkOrderServicePayload free_plan "u2" "upi") newcomer_db in
  (∃ r, first.1 = Returned r)
  ∧ orderService (mkOrderEnv (Some "-S2") "-I2" "d" "d" "d")
                 (mkOrderServicePayload free_plan "u2" "upi") first.2
    = (Thrown LimitExceeded, first.2).
Proof.
  intros first. split; [eexists; reflexivity|].
  eapply (orderService_second_free_order an_order_env
            (mkOrderEnv (Some "-S2") "-I2" "d" "d" "d")
            (mkOrderServicePayload free_plan "u2" "upi")
            (mkOrderServicePayload free_plan "u2" "upi") newcomer_db first.2).
  - exists (mkRestrictions true). split; reflexivity.
  - reflexivity.
  - reflexivity.
  - reflexivity.
  - reflexivity.
  - reflexivity.
Defined.

(** X4: a successful order touches nothing but the new service and the new
    invoice: every other service of every user, every invoice under another
    key, the settings, the Subdomain records and the panel credentials are
    as before. *)
Theorem orderService_frame (env : OrderEnv) (p : OrderServicePayload) (db db' : DB)
    (serviceId : string) (service : Service) :
  orderService env p db = (Returned (serviceId, service), db') →
  (∀ uid sid, (uid, sid) ≠ (osp_userId p, serviceId) →
      get_services db' uid !! sid = get_services db uid !! sid)
  ∧ (∀ k, k ≠ oe_invoiceKey env → kv_get k (invoices db') = kv_get k (invoices db))
  ∧ subdomains db' = subdomains db
  ∧ pannelneed db' = pannelneed db
  ∧ settings_restrictions db' = settings_restrictions db
  ∧ settings_stripe db' = settings_stripe db
  ∧ settings_domain db' = settings_domain db
  ∧ settings_invoice db' = settings_invoice db.
Proof.
  rewrite orderService_outcomes. cbv zeta.
  destruct (negb (truthy (osp_userId p)) || negb (truthy_opt (plan_id (osp_plan p))));
    [discriminate|].
  destruct ((plan_price (osp_plan p) =? 0)%Z && free_limit_reached db (osp_userId p));
    [discriminate|].
  destruct (negb (path_safe (osp_userId p))); [discriminate|].
  destruct (oe_serviceKey env) as [key|]; [|discriminate].
  destruct (negb (truthy key)); [discriminate|].
  destruct (email_of db (osp_userId p)) as [email|]; [|discriminate].
  intros H. injection H as <- _ <-. split; [|split].
  - intros uid sid Hne.
    change (get_services (with_invoices ?d ?l) ?u) with (get_services d u).
    apply get_services_set_service_other, Hne.
  - intros k Hne. simpl. apply kv_get_set_ne, Hne.
  - repeat split.
Qed.

Lemma orderService_frame_witness :
  let db' := (orderService an_order_env (mkOrderServicePayload paid_plan "u1" "stripe")
                limited_db).2 in
  get_services db' "u1" !! "-S0" = Some free_service
  ∧ subdomains db' = subdomains limited_db.
Proof.
  intros db'.
  destruct (orderService_frame an_order_env (mkOrderServicePayload paid_plan "u1" "stripe")
              limited_db db' "-S1" _ eq_refl) as (Hs & _ & Hsub & _).
  split; [|exact Hsub].
  rewrite (Hs "u1" "-S0") by discriminate. reflexivity.
Defined.

(* ===================================================================== *)
(** ** More about the status change and the payment reconciler *)
(* ===================================================================== *)

Lemma mark_first_invoice_paid_frame (db : DB) (sid : string) :
  users (mark_first_invoice_paid db sid) = users db
  ∧ same_settings_and_provisioning db (mark_first_invoice_paid db sid).
Proof.
  unfold mark_first_invoice_paid, same_settings_and_provisioning.
  destruct (invoices_of_service db sid) as [|[k i] rest]; repeat split.
Qed.



(** X5: [updateServiceStatus] is idempotent: a second call with the same
    arguments returns the same outcome and leaves the store of the first
    call as it is, for every status, [Active] with its invoice update
    included. *)
Theorem updateServiceStatus_idempotent (userId serviceId : string) (status : ServiceStatus)
    (db : DB) :
  let once := updateServiceStatus userId serviceId status db in
  updateServiceStatus userId serviceId status once.2 = once.
Proof.
  unfold updateServiceStatus.
  destruct (negb (truthy userId) || negb (truthy serviceId)); [reflexivity|].
  cbv zeta.
  destruct (negb (valid_path ("users/" +:+ userId +:+ "/services/" +:+ serviceId)));
    [reflexivity|].
  cbn [fst snd]. f_equal.
  destruct status;
    try (apply update_service_idem, set_service_status_idem).
  rewrite <- !mark_first_invoice_paid_update_service.
  rewrite mark_first_invoice_paid_idem.
  rewrite !mark_first_invoice_paid_update_service.
  rewrite update_service_idem by apply set_service_status_idem.
  reflexivity.
Qed.



(** X7: invoices are never lost or rewritten by a status change: after
    [updateServiceStatus] the invoices are the same records under the same
    keys in the same order, except that a status may have become [Paid]. *)
Theorem updateServiceStatus_invoices_kept (userId serviceId : string)
    (status : ServiceStatus) (db : DB) :
  List.Forall2 invoice_kept_or_paid
    (invoices db) (invoices (updateServiceStatus userId serviceId status db).2).
Proof.
  unfold updateServiceStatus.
  destruct (negb (truthy userId) || negb (truthy serviceId));
    [apply Forall2_invoice_kept|].
  cbv zeta.
  destruct (negb (valid_path ("users/" +:+ userId +:+ "/services/" +:+ serviceId)));
    [apply Forall2_invoice_kept|].
  cbn [fst snd]. destruct status; try apply Forall2_invoice_kept.
  apply (mark_first_invoice_paid_invoices
           (update_service db userId serviceId (set_service_status Active))).
Qed.

Section MoreWebhookProperties.

Variable constructEvent : string → string → string → Outcome StripeEvent.

(** X8: manual confirmation and the webhook converge: for a user and a
    service whose ids are keys of the store, marking the service [Active]
    with [updateServiceStatus] returns and leaves exactly the store that
    the webhook leaves when it acknowledges an authenticated
    successful-payment event of the same user and service. *)
Theorem updateServiceStatus_matches_webhook (req : Request) (db : DB)
    (webhookSecret : string) (ev : StripeEvent) (userId planId serviceId : string) :
  stripe_configured db webhookSecret →
  authenticate constructEvent req webhookSecret = Returned ev →
  payment_event ev userId planId serviceId →
  store_key userId → store_key serviceId →
  (POST constructEvent req db).1 = mkResponse 200 ReceivedBody
  ∧ updateServiceStatus userId serviceId Active db
    = (Returned tt, (POST constructEvent req db).2).
Proof.
  intros Hconf Hauth Hev Hku Hks.
  rewrite (POST_payment_event constructEvent req db webhookSecret ev userId planId serviceId)
    by assumption.
  destruct Hev as (_ & _ & Hu & _ & Hs).
  unfold updateServiceStatus. rewrite Hu, Hs, valid_path_service.
  rewrite (store_key_path_safe _ Hku), (store_key_path_safe _ Hks). simpl.
  rewrite mark_first_invoice_paid_update_service. split; reflexivity.
Qed.

(** X9: while either Stripe secret is missing or empty the handler answers
    every request, signed or not, with 500 "Stripe is not configured." and
    leaves the store alone. *)
Theorem POST_not_configured (req : Request) (db : DB) :
  (∀ webhookSecret, ¬ stripe_configured db webhookSecret) →
  POST constructEvent req db
  = (mkResponse 500 (ErrorBody "Stripe is not configured."), db).
Proof.
  intros Hnot. unfold POST.
  destruct (getStripeSecrets db) as [[sk|] [wh|]] eqn:Hsec; try reflexivity.
  destruct (truthy sk) eqn:Hsk; [|reflexivity].
  destruct (truthy wh) eqn:Hwh; [|reflexivity].
  exfalso. apply (Hnot wh). exists sk. auto.
Qed.

(** X10: an authenticated [checkout.session.completed] event whose
    metadata lacks the userId, the planId or the serviceId is acknowledged
    with status 200, so that Stripe does not retry, carries the error
    "Missing metadata." and changes nothing. *)
Theorem POST_missing_metadata (req : Request) (db : DB) (webhookSecret : string)
    (ev : StripeEvent) :
  stripe_configured db webhookSecret →
  authenticate constructEvent req webhookSecret = Returned ev →
  ev_type ev = "checkout.session.completed" →
  metadata_incomplete ev →
  POST constructEvent req db = (mkResponse 200 (ErrorBody "Missing metadata."), db).
Proof.
  intros (sk & Hsec & Hsk & Hwh) Hauth Hty Hmd.
  unfold POST. rewrite Hsec, Hsk, Hwh. simpl. rewrite Hauth, Hty. simpl.
  unfold metadata_incomplete in Hmd. cbv zeta in Hmd.
  destruct (default (mkMetadata None None None) (ev_metadata ev)) as [[u|] [p|] [s|]];
    simpl in *; try reflexivity.
  destruct Hmd as [H | [H | H]]; rewrite H; simpl; rewrite ?orb_true_r; reflexivity.
Qed.

(** X11: whatever the request, the handler never deletes, adds or rewrites
    an invoice and never touches settings, Subdomain records or panel
    credentials: the invoices afterwards are the same records under the same
    keys, except that a status may have become [Paid]. *)
Theorem POST_invoices_kept (req : Request) (db : DB) :
  List.Forall2 invoice_kept_or_paid (invoices db) (invoices (POST constructEvent req db).2)
  ∧ same_settings_and_provisioning db (POST constructEvent req db).2.
Proof.
  assert (Hsame : List.Forall2 invoice_kept_or_paid (invoices db) (invoices db)
                  ∧ same_settings_and_provisioning db db)
    by (split; [apply Forall2_invoice_kept | repeat split]).
  unfold POST.
  destruct (getStripeSecrets db) as [[sk|] [wh|]]; try exact Hsame.
  destruct (negb (truthy sk) || negb (truthy wh)); [exact Hsame|].
  destruct (authenticate constructEvent req wh) as [ev|m]; [|exact Hsame].
  destruct (ev_type ev =? "checkout.session.completed"); [|exact Hsame].
  cbv zeta.
  destruct (default (mkMetadata None None None) (ev_metadata ev)) as [[u|] [p|] [s|]];
    simpl; try exact Hsame.
  destruct (negb (truthy u) || negb (truthy p) || negb (truthy s)); [exact Hsame|].
  destruct (negb (valid_path ("users/" +:+ u +:+ "/services/" +:+ s))); simpl; split;
    try apply mark_first_invoice_paid_invoices;
    apply (proj2 (mark_first_invoice_paid_frame db s)).
Qed.

(** X12: a payment for a service without invoice is not an error, and the
    service named by the metadata is not looked up: when the ids of the
    metadata are keys of the store, the event is acknowledged with 200
    [{received: true}], the invoices stay as they are and the service is set
    [Active]; where no service was stored under the ids, one that holds
    nothing but the status [Active] is created. *)
Theorem POST_payment_without_invoice (req : Request) (db : DB) (webhookSecret : string)
    (ev : StripeEvent) (userId planId serviceId : string) :
  stripe_configured db webhookSecret →
  authenticate constructEvent req webhookSecret = Returned ev →
  payment_event ev userId planId serviceId →
  store_key userId → store_key serviceId →
  invoices_of_service db serviceId = [] →
  let r := POST constructEvent req db in
  r.1 = mkResponse 200 ReceivedBody
  ∧ invoices r.2 = invoices db
  ∧ (∀ s, get_services db userId !! serviceId = Some s →
          get_services r.2 userId !! serviceId = Some (set_service_status Active s))
  ∧ (get_services db userId !! serviceId = None →
          get_services r.2 userId !! serviceId = Some (service_stub Active)).
Proof.
  intros Hconf Hauth Hev Hku Hks Hnone. cbv zeta.
  rewrite (POST_payment_event constructEvent req db webhookSecret ev userId planId serviceId)
    by assumption.
  rewrite (store_key_path_safe _ Hku), (store_key_path_safe _ Hks).
  simpl. unfold mark_first_invoice_paid. rewrite Hnone.
  split; [reflexivity|]. split; [reflexivity|]. split.
  - intros s Hold. rewrite get_services_update_service, Hold. reflexivity.
  - intros Hold. rewrite get_services_update_service, Hold. reflexivity.
Qed.

End MoreWebhookProperties.

Lemma updateServiceStatus_matches_webhook_witness :
  (POST demo_constructEvent (mkRequest "paid" (Some "whsec")) pending_db).1
  = mkResponse 200 ReceivedBody
  ∧ updateServiceStatus "u1" "-S1" Active pending_db
    = (Returned tt, (POST demo_constructEvent (mkRequest "paid" (Some "whsec")) pending_db).2).
Proof.
  apply (updateServiceStatus_matches_webhook demo_constructEvent
           (mkRequest "paid" (Some "whsec")) pending_db "whsec"
           (mkStripeEvent "checkout.session.completed"
              (Some (mkMetadata (Some "u1") (Some "p1") (Some "-S1"))))
           "u1" "p1" "-S1").
  - exists "sk_test". repeat split; reflexivity.
  - reflexivity.
  - repeat split; reflexivity.
  - split; [reflexivity | simpl; lia].
  - split; [reflexivity | simpl; lia].
Defined.

Lemma POST_not_configured_witness :
  POST demo_constructEvent (mkRequest "paid" (Some "whsec")) limited_db
  = (mkResponse 500 (ErrorBody "Stripe is not configured."), limited_db).
Proof.
  apply (POST_not_configured demo_constructEvent (mkRequest "paid" (Some "whsec")) limited_db).
  intros wh (sk & Hsec & _). discriminate.
Defined.

Lemma POST_missing_metadata_witness :
  POST (λ _ _ _, Returned (mkStripeEvent "checkout.session.completed"
                             (Some (mkMetadata (Some "u1") None (Some "-S1")))))
       (mkRequest "paid" (Some "whsec")) pending_db
  = (mkResponse 200 (ErrorBody "Missing metadata."), pending_db).
Proof.
  apply (POST_missing_metadata _ (mkRequest "paid" (Some "whsec")) pending_db "whsec"
           (mkStripeEvent "checkout.session.completed"
              (Some (mkMetadata (Some "u1") None (Some "-S1"))))).
  - exists "sk_test". repeat split; reflexivity.
  - reflexivity.
  - reflexivity.
  - right. left. reflexivity.
Defined.

Lemma POST_payment_without_invoice_witness :
  let r := POST (λ _ _ _, Returned (mkStripeEvent "checkout.session.completed"
                             (Some (mkMetadata (Some "u5") (Some "p1") (Some "-S5")))))
                (mkRequest "paid" (Some "whsec")) pending_db in
  r.1 = mkResponse 200 ReceivedBody
  ∧ invoices r.2 = invoices pending_db
  ∧ get_services r.2 "u5" !! "-S5" = Some (service_stub Active).
Proof.
  intros r.
  destruct (POST_payment_without_invoice
              (λ _ _ _, Returned (mkStripeEvent "checkout.session.completed"
                             (Some (mkMetadata (Some "u5") (Some "p1") (Some "-S5")))))
              (mkRequest "paid" (Some "whsec")) pending_db "whsec"
              (mkStripeEvent "checkout.session.completed"
                 (Some (mkMetadata (Some "u5") (Some "p1") (Some "-S5"))))
              "u5" "p1" "-S5") as (H1 & H2 & _ & H4).
  - exists "sk_test". repeat split; reflexivity.
  - reflexivity.
  - repeat split; reflexivity.
  - split; [reflexivity | simpl; lia].
  - split; [reflexivity | simpl; lia].
  - reflexivity.
  - split; [exact H1|]. split; [exact H2|]. apply H4. reflexivity.
Defined.

(* ===================================================================== *)
(** ** More about the panel login *)
(* ===================================================================== *)

(** X13: a refused login hands out nothing and writes nothing: when
    [success] is false the result carries neither username nor password nor
    token and the store, panel credentials included, is untouched. *)
Theorem handleAquaPanelLogin_failure (env : LoginEnv) (userId serviceId : string)
    (db db' : DB) (result : LoginResult) :
  handleAquaPanelLogin env userId serviceId db = (result, db') →
  lr_success result = false →
  db' = db
  ∧ lr_username result = None ∧ lr_password result = None ∧ lr_token result = None.
Proof.
  unfold handleAquaPanelLogin.
  destruct (negb (truthy userId) || negb (truthy serviceId));
    [intros H; injection H as <- <-; auto|].
  destruct (get_service db userId serviceId) as [s|];
    [|intros H; injection H as <- <-; auto].
  destruct (negb (truthy_opt (svc_subdomain s)));
    [intros H; injection H as <- <-; auto|].
  intros H. injection H as <- <-. discriminate.
Qed.

Lemma handleAquaPanelLogin_failure_witness :
  (handleAquaPanelLogin a_login_env "u1" "-S7" provision_db).2 = provision_db.
Proof.
  eapply (handleAquaPanelLogin_failure a_login_env "u1" "-S7" provision_db).
  - apply surjective_pairing.
  - reflexivity.
Defined.

(** X14: a granted login stores what it returns: for a service of the user
    that has a subdomain, the username is the part of the subdomain before
    its first dot, the password and token are the fresh random ones, and
    [pannelneed/<username>] afterwards holds exactly them, with an expiry
    3600 seconds after the call, for this user and service.  Credentials of
    other usernames and everything outside [pannelneed] stay as they are. *)
Theorem handleAquaPanelLogin_grant (env : LoginEnv) (userId serviceId : string) (db : DB)
    (service : Service) (fullSubdomain : string) :
  truthy userId = true → truthy serviceId = true →
  get_service db userId serviceId = Some service →
  svc_subdomain service = Some fullSubdomain →
  truthy fullSubdomain = true →
  let username := before_dot fullSubdomain in
  let r := handleAquaPanelLogin env userId serviceId db in
  r.1 = mkLoginResult true (Some username) (Some (le_password env)) (Some (le_token env))
                      "Temporary login session created."
  ∧ pannelneed r.2 !! username
    = Some (mkPanelCredential (le_password env) (le_token env)
                              (le_now_seconds env + 3600) userId serviceId)
  ∧ (∀ other, other ≠ username → pannelneed r.2 !! other = pannelneed db !! other)
  ∧ users r.2 = users db ∧ invoices r.2 = invoices db ∧ subdomains r.2 = subdomains db.
Proof.
  intros Hu Hs Hget Hsub Htr. cbv zeta.
  unfold handleAquaPanelLogin. rewrite Hu, Hs, Hget, Hsub. simpl. rewrite Htr. simpl.
  split; [reflexivity|]. split; [apply lookup_insert_eq|]. split.
  - intros other Hne. apply lookup_insert_ne. congruence.
  - repeat split.
Qed.

Lemma handleAquaPanelLogin_grant_witness :
  let r := handleAquaPanelLogin a_login_env "u1" "-S7" shop_db in
  lr_username r.1 = Some "shop"
  ∧ pc_expires_at <$> pannelneed r.2 !! "shop" = Some 1700003600%Z.
Proof.
  intros r.
  destruct (handleAquaPanelLogin_grant a_login_env "u1" "-S7" shop_db
              (set_provisioned "shop.example.com"
                 (mkCpanel "shop" "00112233445566778899aabb"
                    "000102030405060708090a0b0c0d0e0f101112131415161718191a1b1c1d1e1f"
                    1700003600000) unprovisioned_service)
              "shop.example.com") as (H1 & H2 & _); try reflexivity.
  subst r. split.
  - rewrite H1. reflexivity.
  - exact (f_equal (fmap pc_expires_at) H2).
Defined.

(** X15: the latest login wins and the earlier one leaves no trace: two
    logins in a row for the same user and service end in the result and the
    store of the second login alone, so the credentials of the first are
    gone from [pannelneed]. *)
Theorem handleAquaPanelLogin_overwrites (env1 env2 : LoginEnv) (userId serviceId : string)
    (db : DB) :
  handleAquaPanelLogin env2 userId serviceId
    (handleAquaPanelLogin env1 userId serviceId db).2
  = handleAquaPanelLogin env2 userId serviceId db.
Proof.
  unfold handleAquaPanelLogin.
  destruct (negb (truthy userId) || negb (truthy serviceId)); simpl; [reflexivity|].
  destruct (get_service db userId serviceId) as [s|] eqn:Hget; simpl;
    [|rewrite Hget; reflexivity].
  destruct (negb (truthy_opt (svc_subdomain s))) eqn:Hsub; simpl;
    [rewrite Hget, Hsub; reflexivity|].
  change (get_service (with_pannelneed db ?ps) userId serviceId)
    with (get_service db userId serviceId).
  rewrite Hget, Hsub. f_equal.
  unfold with_pannelneed. simpl. rewrite insert_insert_eq. reflexivity.
Qed.

(* ===================================================================== *)
(** ** More about provisioning *)
(* ===================================================================== *)

(** X16: the tool reports success exactly when the HTTP exchange gave an
    ok response whose body parsed to an object with [status] 1; a network
    error, a non-ok status, an unparseable body or any other [status] is a
    failure.  In every case it made exactly one request, for the label, the
    root domain and the directory [label.rootDomain]. *)
Theorem createSubdomainOnServer_success_iff (env : ProvisionEnv) (subdomain rootDomain : string) :
  let call := mkApiCall subdomain rootDomain (subdomain +:+ "." +:+ rootDomain) in
  let r := createSubdomainOnServer env subdomain rootDomain in
  r.2 = [call]
  ∧ (tool_success r.1 = true
     ↔ ∃ status text data,
         pe_fetch env call = FetchResponse true status text (Some data)
         ∧ api_status data = Some 1%Z).
Proof.
  cbv zeta. unfold createSubdomainOnServer. simpl. split; [reflexivity|].
  destruct (pe_fetch env _) as [m|ok status text [data|]]; simpl.
  - split; [discriminate | intros (? & ? & ? & ? & _); discriminate].
  - destruct ok; simpl.
    + destruct (bool_decide (api_status data = Some 1%Z)) eqn:E; simpl.
      * apply bool_decide_eq_true in E. split; [eauto 6|reflexivity].
      * apply bool_decide_eq_false in E.
        split; [discriminate|]. intros (? & ? & d & Heq & Hst).
        injection Heq as _ _ <-. contradiction.
    + split; [discriminate | intros (? & ? & ? & ? & _); discriminate].
  - destruct ok; simpl;
      (split; [discriminate | intros (? & ? & ? & ? & _); discriminate]).
Qed.

(** What the flow does when the name is free and the server created the
    subdomain. *)
Lemma createSubdomainFlow_run (env : ProvisionEnv) (input : CreateSubdomainInput) (db : DB)
    (rootDomain : string) :
  settings_domain db = Some (mkDomainSettings rootDomain) →
  truthy rootDomain = true →
  subdomains_named db (csi_subdomain input +:+ "." +:+ rootDomain) = [] →
  tool_success (createSubdomainOnServer env (csi_subdomain input) rootDomain).1 = true →
  let fullSubdomain := csi_subdomain input +:+ "." +:+ rootDomain in
  let db1 :=
    with_subdomains db
      (kv_set (pe_pushKey env)
         (mkSubdomain (csi_userId input) fullSubdomain (pe_createdAt env) "Active"
                      (csi_serviceId input))
         (subdomains db)) in
  let success :=
    mkCreateSubdomainOutput true
      ("Subdomain '" +:+ fullSubdomain
       +:+ "' has been successfully created and is now active.")
      (Some fullSubdomain) in
  let calls := [mkApiCall (csi_subdomain input) rootDomain fullSubdomain] in
  createSubdomainFlow env input db
  = match csi_serviceId input with
    | None =>
        (Thrown (ContainsUndefined ("subdomains." +:+ pe_pushKey env +:+ ".serviceId")),
         db, calls)
    | Some sid =>
        if truthy sid then
          if path_safe (csi_userId input) && path_safe sid then
            (Returned success,
             update_service db1 (csi_userId input) sid
               (set_provisioned fullSubdomain
                  (mkCpanel (csi_subdomain input) (pe_password env) (pe_token env)
                            (pe_now_ms env + 60 * 60 * 1000))),
             calls)
          else
            (Thrown (InvalidPath ("users/" +:+ csi_userId input +:+ "/services/" +:+ sid)),
             db1, calls)
        else (Returned success, db1, calls)
    end.
Proof.
  intros Hdom Htr Hfree Htool. cbv zeta.
  unfold createSubdomainFlow. rewrite Hdom. cbn [domain]. rewrite Htr. cbn [negb].
  rewrite Hfree.
  destruct (createSubdomainOnServer env (csi_subdomain input) rootDomain)
    as [result calls] eqn:Ecall.
  cbn [fst] in Htool. cbv beta iota. rewrite Htool. cbn [negb].
  assert (calls = [mkApiCall (csi_subdomain input) rootDomain
                             (csi_subdomain input +:+ "." +:+ rootDomain)]) as ->.
  { unfold createSubdomainOnServer in Ecall. injection Ecall as _ <-. reflexivity. }
  destruct (csi_serviceId input) as [sid|]; [|reflexivity].
  destruct (truthy sid); [|reflexivity].
  rewrite valid_path_service.
  destruct (path_safe (csi_userId input) && path_safe sid); reflexivity.
Qed.

(** The flow succeeds only along that path, with a serviceId that is empty
    or makes a path [ref] accepts. *)
Lemma createSubdomainFlow_success_inv (env : ProvisionEnv) (input : CreateSubdomainInput)
    (db db' : DB) (out : CreateSubdomainOutput) (calls : list ApiCall) :
  createSubdomainFlow env input db = (Returned out, db', calls) →
  cso_success out = true →
  ∃ rootDomain sid,
    settings_domain db = Some (mkDomainSettings rootDomain)
    ∧ truthy rootDomain = true
    ∧ subdomains_named db (csi_subdomain input +:+ "." +:+ rootDomain) = []
    ∧ tool_success (createSubdomainOnServer env (csi_subdomain input) rootDomain).1 = true
    ∧ csi_serviceId input = Some sid
    ∧ (truthy sid = true → path_safe (csi_userId input) && path_safe sid = true).
Proof.
  unfold createSubdomainFlow.
  destruct (settings_domain db) as [[d]|];
    [|intros H; injection H as <- _ _; discriminate]. cbn [domain].
  destruct (truthy d) eqn:Htr; cbn [negb];
    [|intros H; injection H as <- _ _; discriminate].
  destruct (subdomains_named db (csi_subdomain input +:+ "." +:+ d)) eqn:Hfree;
    [|intros H; injection H as <- _ _; discriminate].
  destruct (createSubdomainOnServer env (csi_subdomain input) d) as [result calls0] eqn:Ecall.
  cbv beta iota.
  destruct (tool_success result) eqn:Htool; cbn [negb];
    [|intros H; injection H as <- _ _; discriminate].
  destruct (csi_serviceId input) as [sid|]; [|discriminate].
  intros Hrun _. exists d, sid. rewrite Ecall.
  do 5 (split; [auto|]). intros Hts. rewrite Hts in Hrun.
  rewrite valid_path_service in Hrun.
  destruct (path_safe (csi_userId input) && path_safe sid); [reflexivity|discriminate].
Qed.

(** X17: for a userId and a serviceId that are keys of the store (the
    serviceId may also be empty), the flow succeeds exactly when a serviceId
    was passed at all, a non-empty root domain is configured, no Subdomain
    record carries the name [label.rootDomain] yet and the provisioning tool
    reports success.  Without a serviceId the flow cannot succeed: the
    record it writes would hold an [undefined] serviceId. *)
Theorem createSubdomainFlow_success_iff (env : ProvisionEnv) (input : CreateSubdomainInput)
    (db : DB) :
  store_key (csi_userId input) →
  (∀ sid, csi_serviceId input = Some sid → sid = "" ∨ store_key sid) →
  (∃ out db' calls,
      createSubdomainFlow env input db = (Returned out, db', calls)
      ∧ cso_success out = true)
  ↔ csi_serviceId input ≠ None
    ∧ ∃ rootDomain,
        settings_domain db = Some (mkDomainSettings rootDomain)
        ∧ truthy rootDomain = true
        ∧ subdomains_named db (csi_subdomain input +:+ "." +:+ rootDomain) = []
        ∧ tool_success (createSubdomainOnServer env (csi_subdomain input) rootDomain).1
          = true.
Proof.
  intros Hku Hks. split.
  - intros (out & db' & calls & Hrun & Hok).
    apply (createSubdomainFlow_success_inv _ _ _ _ _ _ Hrun) in Hok
      as (d & sid & Hdom & Htr & Hfree & Htool & Hsid & _).
    split; [congruence | eauto].
  - intros (Hsome & d & Hdom & Htr & Hfree & Htool).
    rewrite (createSubdomainFlow_run env input db d) by assumption. cbv zeta.
    destruct (csi_serviceId input) as [sid|]; [|contradiction].
    destruct (Hks sid eq_refl) as [-> | Hk].
    + simpl. eauto.
    + rewrite (store_key_truthy _ Hk).
      rewrite (store_key_path_safe _ Hku), (store_key_path_safe _ Hk). simpl. eauto.
Qed.

Lemma createSubdomainFlow_success_iff_witness :
  ∃ out db' calls,
    createSubdomainFlow (a_provision_env "-K1")
      (mkCreateSubdomainInput "shop" "u1" (Some "-S7")) provision_db
    = (Returned out, db', calls)
    ∧ cso_success out = true.
Proof.
  apply (createSubdomainFlow_success_iff (a_provision_env "-K1")
           (mkCreateSubdomainInput "shop" "u1" (Some "-S7")) provision_db).
  - split; [reflexivity | simpl; lia].
  - intros sid H. injection H as <-. right. split; [reflexivity | simpl; lia].
  - split; [discriminate|]. exists "example.com". repeat split.
Defined.

(** X18: a provisioning attempt that fails leaves no local record: whether
    the root domain is missing, the name is taken or the provisioning API
    refuses, the store is exactly as before, no subdomain is returned, and
    at most one request went to the API. *)
Theorem createSubdomainFlow_failure (env : ProvisionEnv) (input : CreateSubdomainInput)
    (db db' : DB) (out : CreateSubdomainOutput) (calls : list ApiCall) :
  createSubdomainFlow env input db = (Returned out, db', calls) →
  cso_success out = false →
  db' = db ∧ cso_subdomain out = None ∧ (List.length calls ≤ 1)%nat.
Proof.
  unfold createSubdomainFlow.
  destruct (settings_domain db) as [[d]|];
    [|intros H; injection H as <- <- <-; simpl; auto].
  simpl. destruct (negb (truthy d));
    [intros H; injection H as <- <- <-; simpl; auto|].
  destruct (subdomains_named db (csi_subdomain input +:+ "." +:+ d));
    [|intros H; injection H as <- <- <-; simpl; auto].
  unfold createSubdomainOnServer. cbv zeta.
  match goal with |- context [negb (tool_success ?r)] => destruct (tool_success r) end; simpl.
  - destruct (csi_serviceId input) as [sid|]; [|discriminate].
    destruct (truthy sid).
    + destruct (negb (valid_path ("users/" +:+ csi_userId input +:+ "/services/" +:+ sid)));
        [discriminate|].
      intros H. injection H as <- _ _. discriminate.
    + intros H. injection H as <- _ _. discriminate.
  - intros H. injection H as <- <- <-. simpl. auto.
Qed.

Lemma createSubdomainFlow_failure_witness :
  (createSubdomainFlow
     (mkProvisionEnv (λ _, FetchResponse false 503 "Service Unavailable" None)
        "pw" "tok" 0 "2024-03-01T00:00:00.000Z" "-K1")
     (mkCreateSubdomainInput "shop" "u1" (Some "-S7")) provision_db).1.2
  = provision_db.
Proof.
  eapply (createSubdomainFlow_failure
            (mkProvisionEnv (λ _, FetchResponse false 503 "Service Unavailable" None)
               "pw" "tok" 0 "2024-03-01T00:00:00.000Z" "-K1")
            (mkCreateSubdomainInput "shop" "u1" (Some "-S7")) provision_db).
  - reflexivity.
  - reflexivity.
Defined.

Lemma kv_set_In {A : Type} (k : string) (v : A) (l : list (string * A)) :
  In (k, v) (kv_set k v l).
Proof.
  induction l as [|[k' v'] l IH]; simpl; [auto|].
  destruct (k' =? k); simpl; auto.
Qed.

Lemma get_service_update_service (db : DB) (uid sid : string) (f : Service → Service) :
  null_service (f (default no_service (get_services db uid !! sid))) = false →
  get_service (update_service db uid sid f) uid sid
  = Some (f (default no_service (get_services db uid !! sid))).
Proof.
  intros Hnn. unfold get_service. rewrite get_services_update_service, Hnn. reflexivity.
Qed.

(** X19: what a successful provisioning leaves behind.  The Subdomain
    record stored under the pushed key carries the full name, the user and
    the serviceId as given.  When a non-empty serviceId was given, the
    service is linked back: its subdomain is the full name, its status is
    [Active] and its cpanel bundle has the label as username, the fresh
    password and token and an expiry one hour (3,600,000 ms) after the call;
    without a serviceId no service is touched.  Invoices and the panel
    credentials under [pannelneed] are never written by the flow. *)
Theorem createSubdomainFlow_success_effect (env : ProvisionEnv) (input : CreateSubdomainInput)
    (db db' : DB) (out : CreateSubdomainOutput) (calls : list ApiCall) :
  createSubdomainFlow env input db = (Returned out, db', calls) →
  cso_success out = true →
  ∃ rootDomain,
    settings_domain db = Some (mkDomainSettings rootDomain)
    ∧ let fullSubdomain := csi_subdomain input +:+ "." +:+ rootDomain in
      cso_subdomain out = Some fullSubdomain
      ∧ kv_get (pe_pushKey env) (subdomains db')
        = Some (mkSubdomain (csi_userId input) fullSubdomain (pe_createdAt env) "Active"
                            (csi_serviceId input))
      ∧ (∀ sid, csi_serviceId input = Some sid → truthy sid = true →
           ∃ s, get_service db' (csi_userId input) sid = Some s
                ∧ svc_subdomain s = Some fullSubdomain
                ∧ svc_status s = Some Active
                ∧ svc_cpanel s
                  = Some (mkCpanel (csi_subdomain input) (pe_password env) (pe_token env)
                                   (pe_now_ms env + 3600000)))
      ∧ (truthy_opt (csi_serviceId input) = false → users db' = users db)
      ∧ invoices db' = invoices db
      ∧ pannelneed db' = pannelneed db.
Proof.
  intros Hrun Hok.
  destruct (createSubdomainFlow_success_inv _ _ _ _ _ _ Hrun Hok)
    as (d & sid & Hdom & Htr & Hfree & Htool & Hsid & Hpath).
  rewrite (createSubdomainFlow_run env input db d) in Hrun by assumption.
  cbv zeta in Hrun. rewrite Hsid in Hrun |- *.
  exists d. split; [exact Hdom|]. cbv zeta.
  destruct (truthy sid) eqn:Hts.
  - rewrite (Hpath eq_refl) in Hrun. injection Hrun as <- <- <-.
    split; [reflexivity|]. split; [simpl; apply kv_get_set_eq|]. split.
    + intros sid' Heq _. injection Heq as <-. eexists. split.
      * apply get_service_update_service. reflexivity.
      * repeat split.
    + split; [simpl; rewrite Hts; discriminate|]. split; reflexivity.
  - injection Hrun as <- <- <-.
    split; [reflexivity|]. split; [simpl; apply kv_get_set_eq|]. split.
    + intros sid' Heq Ht. injection Heq as <-. congruence.
    + repeat split.
Qed.

Lemma createSubdomainFlow_success_effect_witness :
  ∃ s, get_service shop_db "u1" "-S7" = Some s
       ∧ svc_subdomain s = Some "shop.example.com"
       ∧ svc_status s = Some Active.
Proof.
  destruct (createSubdomainFlow_success_effect (a_provision_env "-K1")
              (mkCreateSubdomainInput "shop" "u1" (Some "-S7")) provision_db shop_db
              _ _ eq_refl eq_refl) as (d & Hdom & _ & _ & Hsvc & _).
  injection Hdom as <-.
  destruct (Hsvc "-S7" eq_refl eq_refl) as (s & Hs & Hsub & Hst & _).
  exists s. auto.
Defined.

(** A name that a record carries is refused. *)
Lemma createSubdomainFlow_taken (env : ProvisionEnv) (input : CreateSubdomainInput) (db : DB)
    (rootDomain key : string) (record : Subdomain) :
  settings_domain db = Some (mkDomainSettings rootDomain) →
  truthy rootDomain = true →
  In (key, record) (subdomains db) →
  sub_subdomain record = csi_subdomain input +:+ "." +:+ rootDomain →
  createSubdomainFlow env input db
  = (Returned (mkCreateSubdomainOutput false
                 (AlreadyTaken (csi_subdomain input +:+ "." +:+ rootDomain)) None),
     db, []).
Proof.
  intros Hdom Htr Hin Hname. unfold createSubdomainFlow.
  rewrite Hdom. simpl. rewrite Htr. simpl.
  pose proof (subdomains_named_In db _ key record Hin Hname) as Hne.
  destruct (subdomains_named db (csi_subdomain input +:+ "." +:+ rootDomain));
    [contradiction | reflexivity].
Qed.

(** X20: a name that was provisioned is taken from then on: after a
    successful provisioning, every further request for the same label, by
    whichever user and for whichever service, is answered with the
    already-taken failure, without a call to the provisioning API and
    without a write. *)
Theorem createSubdomainFlow_taken_afterwards (env1 env2 : ProvisionEnv)
    (input1 input2 : CreateSubdomainInput) (db : DB) (out : CreateSubdomainOutput) :
  let first := createSubdomainFlow env1 input1 db in
  first.1.1 = Returned out →
  cso_success out = true →
  csi_subdomain input2 = csi_subdomain input1 →
  ∃ fullSubdomain,
    cso_subdomain out = Some fullSubdomain
    ∧ createSubdomainFlow env2 input2 first.1.2
      = (Returned (mkCreateSubdomainOutput false (AlreadyTaken fullSubdomain) None),
         first.1.2, []).
Proof.
  cbv zeta. intros Hret Hok Hlabel.
  destruct (createSubdomainFlow env1 input1 db) as [[o db2] calls] eqn:Hrun.
  cbn [fst snd] in *. subst o.
  destruct (createSubdomainFlow_success_inv _ _ _ _ _ _ Hrun Hok)
    as (d & sid & Hdom & Htr & Hfree & Htool & Hsid & Hpath).
  rewrite (createSubdomainFlow_run env1 input1 db d) in Hrun by assumption.
  cbv zeta in Hrun. rewrite Hsid in Hrun.
  exists (csi_subdomain input1 +:+ "." +:+ d).
  assert (Hstate : cso_subdomain out = Some (csi_subdomain input1 +:+ "." +:+ d)
                   ∧ settings_domain db2 = Some (mkDomainSettings d)
                   ∧ In (pe_pushKey env1,
                         mkSubdomain (csi_userId input1) (csi_subdomain input1 +:+ "." +:+ d)
                                     (pe_createdAt env1) "Active" (Some sid))
                        (subdomains db2)).
  { destruct (truthy sid).
    - rewrite (Hpath eq_refl) in Hrun. injection Hrun as <- <- _.
      split; [reflexivity|]. split; [exact Hdom | apply kv_set_In].
    - injection Hrun as <- <- _.
      split; [reflexivity|]. split; [exact Hdom | apply kv_set_In]. }
  destruct Hstate as (Hsub & Hdom2 & Hin). split; [exact Hsub|].
  rewrite <- Hlabel.
  apply (createSubdomainFlow_taken env2 input2 db2 d _ _ Hdom2 Htr Hin).
  rewrite Hlabel. reflexivity.
Qed.

Lemma createSubdomainFlow_taken_afterwards_witness :
  createSubdomainFlow (a_provision_env "-K9") (mkCreateSubdomainInput "shop" "u3" None) shop_db
  = (Returned (mkCreateSubdomainOutput false (AlreadyTaken "shop.example.com") None),
     shop_db, []).
Proof.
  destruct (createSubdomainFlow_taken_afterwards (a_provision_env "-K1")
              (a_provision_env "-K9")
              (mkCreateSubdomainInput "shop" "u1" (Some "-S7"))
              (mkCreateSubdomainInput "shop" "u3" None) provision_db _
              eq_refl eq_refl eq_refl)
    as (full & Hfull & Hrun).
  injection Hfull as <-. exact Hrun.
Defined.

Lemma before_dot_app (label rest : string) :
  List.Forall (λ c, (c =? ".")%char = false) (list_ascii_of_string label) →
  before_dot (label +:+ String "." rest) = label.
Proof.
  induction label as [|c label IH]; simpl; intros H.
  - reflexivity.
  - inversion H as [|? ? Hc Hrest]; subst. rewrite Hc, IH by assumption. reflexivity.
Qed.

Lemma label_char_not_dot (c : ascii) : label_char c → (c =? ".")%char = false.
Proof.
  intros Hc. destruct (c =? ".")%char eqn:E; [|reflexivity].
  apply Ascii.eqb_eq in E. subst c. destruct Hc; discriminate.
Qed.

(** The data that passed the schema: a label the pattern accepts and a
    userId that is not empty. *)
Lemma safeParse_inl (input data : CreateSubdomainInput) :
  safeParse input = inl data →
  data = input
  ∧ (3 ≤ String.length (csi_subdomain input) ≤ 30)%nat
  ∧ regex_test subdomain_pattern (csi_subdomain input) = true
  ∧ truthy (csi_userId input) = true.
Proof.
  unfold safeParse, fieldErrors, subdomain_issues, userId_issues. simpl.
  destruct (js_length (csi_subdomain input) <? 3)%nat eqn:Hmin; [discriminate|].
  destruct (30 <? js_length (csi_subdomain input))%nat eqn:Hmax; [discriminate|].
  destruct (regex_test subdomain_pattern (csi_subdomain input)) eqn:Hre; [|discriminate].
  simpl.
  destruct (csi_userId input) as [|c u] eqn:Hu; simpl; [discriminate|].
  intros H. injection H as <-.
  rewrite (js_length_label _ Hre) in Hmin, Hmax.
  apply Nat.ltb_ge in Hmin, Hmax. repeat split; assumption.
Qed.

(** X21: provisioning opens the panel: when [createSubdomain] succeeded
    for a non-empty serviceId, a panel login of that user for that service
    on the resulting store is granted, and the username it returns is the
    label that was provisioned (a label the schema accepts holds no dot, so
    splitting the full name at its first dot gives the label back). *)
Theorem createSubdomain_then_login (penv : ProvisionEnv) (lenv : LoginEnv)
    (input : CreateSubdomainInput) (db db' : DB) (out : CreateSubdomainOutput)
    (calls : list ApiCall) (serviceId : string) :
  createSubdomain penv input db = (Returned out, db', calls) →
  cso_success out = true →
  csi_serviceId input = Some serviceId →
  truthy serviceId = true →
  (handleAquaPanelLogin lenv (csi_userId input) serviceId db').1
  = mkLoginResult true (Some (csi_subdomain input)) (Some (le_password lenv))
                  (Some (le_token lenv)) "Temporary login session created.".
Proof.
  intros Hrun Hok Hsid Hts. unfold createSubdomain in Hrun.
  destruct (safeParse input) as [data|errs] eqn:Hparse; [|discriminate].
  apply safeParse_inl in Hparse as (-> & _ & Hre & Hu).
  destruct (createSubdomainFlow_success_inv _ _ _ _ _ _ Hrun Hok)
    as (d & sid & Hdom & Htr & Hfree & Htool & Hsid' & Hpath).
  rewrite Hsid in Hsid'. injection Hsid' as <-.
  rewrite (createSubdomainFlow_run penv input db d) in Hrun by assumption.
  cbv zeta in Hrun. rewrite Hsid, Hts, (Hpath Hts) in Hrun.
  injection Hrun as _ <- _.
  unfold handleAquaPanelLogin. rewrite Hu, Hts. cbn [negb orb].
  rewrite get_service_update_service by reflexivity.
  cbn [set_provisioned svc_subdomain truthy_opt default].
  assert (Hfull : truthy (csi_subdomain input +:+ "." +:+ d) = true).
  { apply truthy_true. destruct (csi_subdomain input); discriminate. }
  rewrite Hfull. cbn [negb fst].
  change ("." +:+ d) with (String "."%char d). unfold id.
  rewrite before_dot_app; [reflexivity|].
  apply accepts_sound, Matches_subdomain_pattern in Hre as (Hall & _).
  eapply List.Forall_impl; [|exact Hall]. apply label_char_not_dot.
Qed.

Lemma createSubdomain_then_login_witness :
  (handleAquaPanelLogin a_login_env "u1" "-S7" shop_db).1
  = mkLoginResult true (Some "shop") (Some (le_password a_login_env))
                  (Some (le_token a_login_env)) "Temporary login session created.".
Proof.
  apply (createSubdomain_then_login (a_provision_env "-K1") a_login_env
           (mkCreateSubdomainInput "shop" "u1" (Some "-S7")) provision_db shop_db
           _ _ "-S7" eq_refl eq_refl eq_refl eq_refl).
Defined.

(* ===================================================================== *)
(** ** The subdomain form action *)
(* ===================================================================== *)

Section SubdomainFormProperties.

Variable invalid_type_null : string.

Lemma safeParse_form_inl (form : SubdomainFormData) (data : CreateSubdomainInput) :
  safeParse_form invalid_type_null form = inl data → safeParse data = inl data.
Proof.
  unfold safeParse_form, form_fieldErrors, safeParse, fieldErrors.
  destruct (fd_subdomain form) as [s|]; [|discriminate].
  destruct (fd_userId form) as [u|].
  - cbn [List.filter snd].
    destruct (negb (bool_decide (subdomain_issues s = []))) eqn:E1; [discriminate|].
    destruct (negb (bool_decide (userId_issues u = []))) eqn:E2; [discriminate|].
    destruct (fd_serviceId form) as [sid|]; simpl; [|discriminate].
    intros H. injection H as <-. cbn [List.filter snd csi_subdomain csi_userId].
    rewrite E1, E2. reflexivity.
  - cbn [List.filter snd].
    destruct (negb (bool_decide (subdomain_issues s = []))); discriminate.
Qed.

(** The flow throws in two places only, both after the provisioning API
    created the subdomain: at the record, when no serviceId was passed, and
    at the path of the service, when the ids make a path [ref] refuses; the
    record is written by then. *)
Lemma createSubdomainFlow_thrown_inv (env : ProvisionEnv) (input : CreateSubdomainInput)
    (db db' : DB) (message : string) (calls : list ApiCall) :
  createSubdomainFlow env input db = (Thrown message, db', calls) →
  ∃ rootDomain,
    settings_domain db = Some (mkDomainSettings rootDomain)
    ∧ calls = [mkApiCall (csi_subdomain input) rootDomain
                         (csi_subdomain input +:+ "." +:+ rootDomain)]
    ∧ tool_success (createSubdomainOnServer env (csi_subdomain input) rootDomain).1 = true
    ∧ ((csi_serviceId input = None ∧ db' = db)
       ∨ (∃ sid,
             csi_serviceId input = Some sid
             ∧ truthy sid = true
             ∧ path_safe (csi_userId input) && path_safe sid = false
             ∧ db' = with_subdomains db
                       (kv_set (pe_pushKey env)
                          (mkSubdomain (csi_userId input)
                             (csi_subdomain input +:+ "." +:+ rootDomain)
                             (pe_createdAt env) "Active" (Some sid))
                          (subdomains db)))).
Proof.
  unfold createSubdomainFlow.
  destruct (settings_domain db) as [[d]|]; [|discriminate]. cbn [domain].
  destruct (truthy d) eqn:Htr; cbn [negb]; [|discriminate].
  destruct (subdomains_named db (csi_subdomain input +:+ "." +:+ d)) eqn:Hfree;
    [|discriminate].
  destruct (createSubdomainOnServer env (csi_subdomain input) d) as [result calls0] eqn:Ecall.
  cbv beta iota.
  destruct (tool_success result) eqn:Htool; cbn [negb]; [|discriminate].
  assert (calls0 = [mkApiCall (csi_subdomain input) d (csi_subdomain input +:+ "." +:+ d)])
    as ->.
  { unfold createSubdomainOnServer in Ecall. injection Ecall as _ <-. reflexivity. }
  intros Hrun. exists d. rewrite Ecall. cbn [fst]. split; [reflexivity|].
  destruct (csi_serviceId input) as [sid|].
  - destruct (truthy sid) eqn:Hts; [|discriminate].
    rewrite valid_path_service in Hrun.
    destruct (path_safe (csi_userId input) && path_safe sid) eqn:Hpath; [discriminate|].
    injection Hrun as _ <- <-. split; [reflexivity|]. split; [exact Htool|].
    right. exists sid. auto.
  - injection Hrun as _ <- <-. split; [reflexivity|]. split; [exact Htool|]. auto.
Qed.

(** X23: the form action never throws and never surfaces the flow's own
    "Invalid input" error, because its schema repeats the flow's.  For ids
    that are single segments, either its validation fails, and then the
    answer is "Validation failed. Please check the form." with the errors
    per field, no call went to the provisioning API and the store is
    untouched; or the data pass the flow's schema as well and the flow ran.
    When the flow returned, the message is the flow's message, [isError] is
    the negation of the flow's [success], and store and API calls are the
    flow's.  When it threw, the ids make a path the SDK refuses: the action
    answers with [isError] and no result, although the subdomain was created
    on the server and its record is stored; no service is linked. *)
Theorem handleSubdomainCreation_cases (env : ProvisionEnv) (form : SubdomainFormData)
    (db : DB) :
  form_ids_one_segment form →
  let r := handleSubdomainCreation invalid_type_null env form db in
  (∃ fields,
      r = (mkSubdomainFormState "Validation failed. Please check the form." (Some fields)
                                true None, db, []))
  ∨ (∃ data sid,
        safeParse data = inl data
        ∧ csi_subdomain data = default "" (fd_subdomain form)
        ∧ fd_serviceId form = Some sid
        ∧ csi_serviceId data = Some sid
        ∧ match createSubdomainFlow env data db with
          | (Returned out, db', calls) =>
              r = (mkSubdomainFormState (cso_message out) None (negb (cso_success out))
                                        (Some out), db', calls)
          | (Thrown message, db', calls) =>
              r.1.2 = db' ∧ r.2 = calls
              ∧ sfs_isError r.1.1 = true ∧ sfs_result r.1.1 = None
              ∧ path_safe (csi_userId data) && path_safe sid = false
              ∧ List.length calls = 1%nat
              ∧ (∃ record, kv_get (pe_pushKey env) (subdomains db') = Some record
                           ∧ sub_serviceId record = Some sid)
              ∧ users db' = users db
          end).
Proof.
  intros _. cbv zeta. unfold handleSubdomainCreation.
  destruct (safeParse_form invalid_type_null form) as [data|errs] eqn:Hparse; [|eauto].
  right. pose proof (safeParse_form_inl form data Hparse) as Hflow.
  assert (Hdata : csi_subdomain data = default "" (fd_subdomain form)
                  ∧ ∃ sid, fd_serviceId form = Some sid ∧ csi_serviceId data = Some sid).
  { revert Hparse. unfold safeParse_form, form_fieldErrors.
    destruct (fd_subdomain form) as [s|]; [|discriminate].
    destruct (fd_userId form) as [u|].
    - cbn [List.filter snd].
      destruct (negb (bool_decide (subdomain_issues s = []))); [discriminate|].
      destruct (negb (bool_decide (userId_issues u = []))); [discriminate|].
      destruct (fd_serviceId form) as [sid|]; simpl; [|discriminate].
      intros H. injection H as <-. split; [reflexivity | eauto].
    - cbn [List.filter snd].
      destruct (negb (bool_decide (subdomain_issues s = []))); discriminate. }
  destruct Hdata as (Hlabel & sid & Hform & Hsid).
  exists data, sid. do 4 (split; [assumption|]).
  unfold createSubdomain. rewrite Hflow.
  destruct (createSubdomainFlow env data db) as [[[out|message] db'] calls] eqn:Hrun;
    [reflexivity|].
  cbn [fst snd sfs_isError sfs_result]. do 4 (split; [reflexivity|]).
  apply createSubdomainFlow_thrown_inv in Hrun
    as (d & _ & -> & _ & [[Hnone _] | (sid' & Hsid' & _ & Hpath & ->)]).
  - congruence.
  - rewrite Hsid in Hsid'. injection Hsid' as <-.
    split; [exact Hpath|]. split; [reflexivity|]. split; [|reflexivity].
    eexists. split; [apply kv_get_set_eq | reflexivity].
Qed.

(** X24: a form without a [serviceId] field is always refused: the field
    reads as [null], which the optional string of the schema does not accept,
    so the action answers "Validation failed. Please check the form.",
    reports an error for [serviceId], calls nothing and writes nothing,
    however good the label is. *)
Theorem handleSubdomainCreation_without_serviceId (env : ProvisionEnv)
    (form : SubdomainFormData) (db : DB) :
  fd_serviceId form = None →
  ∃ fields,
    handleSubdomainCreation invalid_type_null env form db
    = (mkSubdomainFormState "Validation failed. Please check the form." (Some fields)
                            true None, db, [])
    ∧ In ("serviceId", invalid_type_null) fields.
Proof.
  intros Hnone. unfold handleSubdomainCreation, safeParse_form, form_fieldErrors.
  rewrite Hnone. cbn [List.filter snd].
  set (e1 := negb (bool_decide (_ = []))).
  set (e2 := negb (bool_decide (_ = []))).
  destruct e1, e2; simpl; eexists; (split; [reflexivity|]); simpl; auto.
Qed.

End SubdomainFormProperties.

Lemma handleSubdomainCreation_cases_witness :
  let r := handleSubdomainCreation "Expected string, received null" (a_provision_env "-K1")
             (mkSubdomainFormData (Some "shop") (Some "u.1") (Some "-S7")) provision_db in
  sfs_isError r.1.1 = true
  ∧ sfs_result r.1.1 = None
  ∧ r.2 = [mkApiCall "shop" "example.com" "shop.example.com"]
  ∧ sub_subdomain <$> kv_get "-K1" (subdomains r.1.2) = Some "shop.example.com"
  ∧ users r.1.2 = users provision_db.
Proof.
  intros r.
  destruct (handleSubdomainCreation_cases "Expected string, received null"
              (a_provision_env "-K1")
              (mkSubdomainFormData (Some "shop") (Some "u.1") (Some "-S7")) provision_db)
    as [(fields & H) | (data & sid & _ & _ & _ & _ & _)].
  - split; intros id H; injection H as <-; (split; [reflexivity | simpl; lia]).
  - discriminate H.
  - repeat split.
Defined.

Lemma handleSubdomainCreation_without_serviceId_witness :
  ∃ fields,
    handleSubdomainCreation "Expected string, received null" (a_provision_env "-K1")
      (mkSubdomainFormData (Some "shop") (Some "u1") None) provision_db
    = (mkSubdomainFormState "Validation failed. Please check the form." (Some fields)
                            true None, provision_db, [])
    ∧ In ("serviceId", "Expected string, received null") fields.
Proof.
  apply (handleSubdomainCreation_without_serviceId "Expected string, received null"
           (a_provision_env "-K1") (mkSubdomainFormData (Some "shop") (Some "u1") None)
           provision_db).
  reflexivity.
Defined.

(* ===================================================================== *)
(** ** Support tickets *)
(* ===================================================================== *)

Lemma strip_prefix_app (p l l' : list ascii) :
  strip_prefix p l = Some l' → l = (p ++ l')%list.
Proof.
  revert l. induction p as [|c p IH]; intros l H; simpl in H.
  - injection H as ->. reflexivity.
  - destruct l as [|d l]; [discriminate|].
    destruct (Ascii.eqb_spec c d) as [->|]; [|discriminate].
    simpl. f_equal. apply IH. exact H.
Qed.

Lemma strip_any_app (ps : list (list ascii)) (l l' : list ascii) :
  strip_any ps l = Some l' → ∃ p, In p ps ∧ l = (p ++ l')%list.
Proof.
  induction ps as [|p ps IH]; simpl; [discriminate|].
  destruct (strip_prefix p l) as [l1|] eqn:E.
  - intros H. injection H as ->. exists p. split; [auto|].
    apply strip_prefix_app. exact E.
  - intros H. destruct (IH H) as (q & Hq & ->). eauto.
Qed.

(** A character that occurs in none of the words stays where it is. *)
Lemma strip_all_keeps (c : ascii) (ps : list (list ascii)) (n : nat) (l : list ascii) :
  (∀ p, In p ps → ¬ In c p) → In c l → In c (strip_all n ps l).
Proof.
  intros Hps. revert l. induction n as [|n IH]; intros l Hc; simpl; [exact Hc|].
  destruct (strip_any ps l) as [l'|] eqn:E; [|exact Hc].
  apply IH. apply strip_any_app in E as (p & Hp & ->).
  apply List.in_app_or in Hc as [Hc|Hc]; [|exact Hc].
  destruct (Hps p Hp Hc).
Qed.

(** The fuel is enough: what [strip_all] leaves starts with none of the
    words, provided none of them is empty. *)
Lemma strip_all_done (ps : list (list ascii)) (n : nat) (l : list ascii) :
  (∀ p, In p ps → p ≠ []) → (List.length l ≤ n)%nat →
  strip_any ps (strip_all n ps l) = None.
Proof.
  intros Hps. revert l. induction n as [|n IH]; intros l Hn; simpl.
  - destruct l; [|simpl in Hn; lia].
    destruct (strip_any ps []) as [l'|] eqn:E; [|reflexivity].
    apply strip_any_app in E as (p & Hp & E).
    symmetry in E. apply List.app_eq_nil in E as [-> _]. destruct (Hps _ Hp eq_refl).
  - destruct (strip_any ps l) as [l'|] eqn:E; [|exact E].
    apply IH. apply strip_any_app in E as (p & Hp & ->).
    rewrite List.length_app in Hn.
    destruct p; [destruct (Hps _ Hp eq_refl)|]. simpl in Hn. lia.
Qed.

Lemma StrWhiteSpaceChar_not_visible (c : ascii) (p : list ascii) :
  visible c → In p StrWhiteSpaceChar → ¬ In c p.
Proof.
  intros Hv Hp Hc. unfold visible in Hv.
  assert (H : Forall (λ p, Forall (λ b, ¬ (33 ≤ nat_of_ascii b ≤ 126)%nat) p)
                     StrWhiteSpaceChar).
  { unfold StrWhiteSpaceChar, WhiteSpace, LineTerminator, bytes. simpl.
    repeat (apply List.Forall_cons || apply List.Forall_nil);
      intros [Hlo Hhi]; vm_compute in Hlo, Hhi; lia. }
  rewrite List.Forall_forall in H. specialize (H p Hp).
  rewrite List.Forall_forall in H. exact (H c Hc Hv).
Qed.

Lemma trimStart_keeps_visible (c : ascii) (l : list ascii) :
  visible c → In c l → In c (trimStart l).
Proof.
  intros Hv. apply strip_all_keeps.
  intros p Hp. exact (StrWhiteSpaceChar_not_visible c p Hv Hp).
Qed.

Lemma trimEnd_keeps_visible (c : ascii) (l : list ascii) :
  visible c → In c l → In c (trimEnd l).
Proof.
  intros Hv Hc. unfold trimEnd. apply List.in_rev. rewrite List.rev_involutive.
  apply strip_all_keeps; [|apply List.in_rev in Hc; exact Hc].
  intros p Hp Hcp. apply List.in_map_iff in Hp as (q & <- & Hq).
  apply List.in_rev in Hcp.
  exact (StrWhiteSpaceChar_not_visible c q Hv Hq Hcp).
Qed.

Lemma trim_visible (s : string) :
  has_visible_character s → truthy (trim s) = true.
Proof.
  intros (c & Hc & Hv). apply truthy_true. intros E.
  apply (trimStart_keeps_visible c _ Hv), (trimEnd_keeps_visible c _ Hv) in Hc.
  unfold trim in E.
  apply (f_equal list_ascii_of_string) in E.
  rewrite list_ascii_of_string_of_list_ascii in E. simpl in E.
  rewrite E in Hc. destruct Hc.
Qed.

Lemma strip_any_ascii_space (c : ascii) (l : list ascii) :
  ascii_space c → strip_any StrWhiteSpaceChar (c :: l) = Some l.
Proof.
  unfold ascii_space. intros H.
  rewrite <- (ascii_nat_embedding c).
  simpl in H.
  destruct H as [<-|[<-|[<-|[<-|[<-|[<-|[]]]]]]]; reflexivity.
Qed.

Lemma strip_all_only_spaces (n : nat) (l : list ascii) :
  Forall ascii_space l → (List.length l ≤ n)%nat →
  strip_all n StrWhiteSpaceChar l = [].
Proof.
  revert l. induction n as [|n IH]; intros l Hl Hn.
  - destruct l; [reflexivity|simpl in Hn; lia].
  - destruct l as [|c l].
    + reflexivity.
    + inversion Hl as [|? ? Hc Hl']; subst.
      cbn [strip_all]. rewrite (strip_any_ascii_space c l Hc).
      apply IH; [exact Hl'|simpl in Hn; lia].
Qed.

Lemma trim_only_spaces (s : string) :
  only_spaces s → truthy (trim s) = false.
Proof.
  intros H. unfold trim, trimStart.
  rewrite (strip_all_only_spaces _ _ H (le_n _)). reflexivity.
Qed.

(** X25: a reply that holds nothing but spaces, tabs and line breaks (the
    empty reply among them) is refused, whoever sends it and whatever the
    ticket: [postReply] throws "Reply cannot be empty." and the tickets are
    left as they were. *)
Theorem postReply_refuses_blank (env : ReplyEnv) (ticketId replyText : string)
    (author : ReplyAuthor) (authorName : string) (tickets : gmap string Ticket) :
  only_spaces replyText →
  postReply env ticketId replyText author authorName tickets
  = (Thrown ReplyEmpty, tickets).
Proof.
  intros H. unfold postReply. rewrite (trim_only_spaces _ H). reflexivity.
Qed.

Lemma postReply_refuses_blank_witness :
  only_spaces "  " ∧
  postReply (mkReplyEnv "r1" "2024-05-01T10:00:00.000Z") "t1" "  " AuthorUser "Ann" ∅
  = (Thrown ReplyEmpty, ∅).
Proof.
  assert (H : only_spaces "  ").
  { unfold only_spaces, ascii_space.
    repeat (apply List.Forall_cons || apply List.Forall_nil); simpl; auto 10. }
  split; [exact H|].
  apply (postReply_refuses_blank _ "t1" "  " AuthorUser "Ann" ∅ H).
Defined.

(** X26: a reply with at least one visible character, for a ticket id that
    is a key of the store, is stored as it was typed, surrounding white
    space included, under the pushed key, and it decides the status of the
    ticket whatever that was before: Answered after a reply of an admin, In
    Progress after a reply of a user, so a reply of the user opens a closed
    ticket again.  The details of the ticket, its other replies and the
    other tickets are untouched.  The ticket is not looked up first: below
    an id without a ticket the call creates a node that holds the reply and
    the status only. *)
Theorem postReply_effect (env : ReplyEnv) (ticketId replyText : string)
    (author : ReplyAuthor) (authorName : string) (tickets : gmap string Ticket) :
  has_visible_character replyText →
  store_key ticketId →
  let old := default no_ticket (tickets !! ticketId) in
  let reply := mkReply author authorName replyText (re_timestamp env) in
  let status := match author with
                | AuthorAdmin => TicketAnswered
                | AuthorUser => TicketInProgress
                end in
  ∃ tickets',
    postReply env ticketId replyText author authorName tickets = (Returned tt, tickets')
    ∧ tickets' !! ticketId
      = Some (mkTicket (tk_details old) (Some status)
                       (<[re_replyKey env := reply]> (tk_replies old)))
    ∧ ∀ other, other ≠ ticketId → tickets' !! other = tickets !! other.
Proof.
  intros Hv Hkey old reply status. unfold postReply.
  rewrite (trim_visible _ Hv). cbn [negb].
  rewrite valid_path_replies, (store_key_path_safe _ Hkey). cbn [negb].
  fold old. fold reply.
  assert (Hstatus : ∀ st ts,
            updateTicketStatus ticketId st ts
            = (Returned tt,
               <[ticketId := set_ticket_status st (default no_ticket (ts !! ticketId))]> ts)).
  { intros st ts. unfold updateTicketStatus.
    rewrite valid_path_ticket, (store_key_path_safe _ Hkey). reflexivity. }
  exists (<[ticketId := set_ticket_status status
                          (default no_ticket
                             (<[ticketId := add_reply (re_replyKey env) reply old]> tickets
                                !! ticketId))]>
            (<[ticketId := add_reply (re_replyKey env) reply old]> tickets)).
  split; [destruct author; apply Hstatus|].
  split.
  - rewrite lookup_insert_eq. rewrite lookup_insert_eq. reflexivity.
  - intros other Hne.
    rewrite lookup_insert_ne by congruence.
    rewrite lookup_insert_ne by congruence. reflexivity.
Qed.

Lemma postReply_effect_witness :
  has_visible_character " ok " ∧
  ∃ tickets',
    postReply (mkReplyEnv "r1" "2024-05-01T10:00:00.000Z") "t1" " ok " AuthorUser "Ann"
              {["t1" := mkTicket None (Some TicketClosed) ∅]}
    = (Returned tt, tickets')
    ∧ tickets' !! "t1"
      = Some (mkTicket None (Some TicketInProgress)
                {["r1" := mkReply AuthorUser "Ann" " ok " "2024-05-01T10:00:00.000Z"]}).
Proof.
  assert (H : has_visible_character " ok ").
  { exists "o"%char. split; [simpl; auto|]. unfold visible. vm_compute. lia. }
  split; [exact H|].
  destruct (postReply_effect (mkReplyEnv "r1" "2024-05-01T10:00:00.000Z") "t1" " ok "
              AuthorUser "Ann" {["t1" := mkTicket None (Some TicketClosed) ∅]} H)
    as (tickets' & Hrun & Hticket & _).
  { split; [reflexivity | simpl; lia]. }
  exists tickets'. split; [exact Hrun|].
  rewrite Hticket. rewrite lookup_singleton_eq. reflexivity.
Defined.

Lemma bulkAutoReply_lookup (env : BulkReplyEnv) (tickets : gmap string Ticket) (ticketId : string) :
  bulkAutoReply env tickets !! ticketId
  = (λ t, if open_or_in_progress t then
            set_ticket_status TicketAnswered
              (add_reply (bre_replyKey env ticketId)
                 (mkReply AuthorAdmin "System Bot" AutoReplyMessage
                          (bre_timestamp env ticketId)) t)
          else t) <$> tickets !! ticketId.
Proof.
  unfold bulkAutoReply. rewrite map_lookup_imap.
  destruct (tickets !! ticketId) as [t|]; simpl; [|reflexivity].
  destruct (open_or_in_progress t); reflexivity.
Qed.


(** X28: [bulkAutoReply] is idempotent: a second run, whatever keys and
    timestamps it would use, finds no ticket to answer and leaves the
    tickets of the first run as they are, so no ticket gets the automatic
    reply twice in a row. *)
Theorem bulkAutoReply_idempotent (env1 env2 : BulkReplyEnv) (tickets : gmap string Ticket) :
  bulkAutoReply env2 (bulkAutoReply env1 tickets) = bulkAutoReply env1 tickets.
Proof.
  apply map_eq. intros ticketId.
  rewrite (bulkAutoReply_lookup env2), (bulkAutoReply_lookup env1).
  destruct (tickets !! ticketId) as [t|]; simpl; [|reflexivity].
  destruct (open_or_in_progress t) eqn:E; [reflexivity|].
  rewrite E. reflexivity.
Qed.

(* ===================================================================== *)
(** ** Password reset *)
(* ===================================================================== *)




Lemma accounts_with_email_kv_update (email userId : string) (f : Account → Account)
    (accounts : list (string * Account)) :
  (∀ a, acc_email (f a) = acc_email a) →
  accounts_with_email email (kv_update userId f accounts)
  = kv_update userId f (accounts_with_email email accounts).
Proof.
  intros Hf. unfold accounts_with_email, kv_update.
  induction accounts as [|[k a] l IH]; [reflexivity|].
  cbn [List.map List.filter fst snd].
  destruct (k =? userId) eqn:E; cbn [fst snd]; rewrite ?Hf;
    destruct (bool_decide (acc_email a = Some email));
    cbn [List.map fst snd]; rewrite ?E, IH; reflexivity.
Qed.

Lemma accounts_with_email_first (email userId : string) (f : Account → Account)
    (accounts rest : list (string * Account)) (user : Account) :
  (∀ a, acc_email (f a) = acc_email a) →
  accounts_with_email email accounts = (userId, user) :: rest →
  accounts_with_email email (kv_update userId f accounts)
  = (userId, f user) :: kv_update userId f rest.
Proof.
  intros Hf H. rewrite accounts_with_email_kv_update by exact Hf.
  rewrite H. unfold kv_update. simpl. rewrite String.eqb_refl. reflexivity.
Qed.

Section PasswordResetProperties.

Variable is_email : string → bool.
Variable invalid_type_null : string.
Variable invalid_type_undefined : string.
Variable too_big_6 : string.


(** What an accepted form holds. *)
Lemma reset_issues_inv (form : ResetForm) :
  first_issue (reset_issues is_email invalid_type_undefined too_big_6 form) = None →
  ∃ email otp password,
    form = reset_form email otp password.
Proof.
  unfold reset_issues. destruct form as [[e|] [o|] [p|] [c|]]; simpl;
    repeat (case_match; simpl); try discriminate.
  intros _. exists e, o, p. unfold reset_form.
  match goal with H : bool_decide _ = true |- _ => apply bool_decide_eq_true in H; injection H as -> end.
  reflexivity.
Qed.


(** X30: a reset code works once.  After a reset that succeeded, every
    further reset for the same email is refused and changes nothing,
    whatever code and password it carries and whenever it arrives, until a
    new code is requested. *)
Theorem handlePasswordReset_single_use (now now' : Z) (form form' : ResetForm)
    (accounts accounts' : list (string * Account)) (st : PasswordResetFormState) :
  handlePasswordReset is_email invalid_type_undefined too_big_6 now form accounts
  = (st, accounts') →
  prs_success st = Some true →
  rf_email form' = rf_email form →
  ∃ st',
    handlePasswordReset is_email invalid_type_undefined too_big_6 now' form' accounts'
    = (st', accounts')
    ∧ prs_isError st' = true.
Proof.
  unfold handlePasswordReset at 1.
  destruct (first_issue (reset_issues is_email invalid_type_undefined too_big_6 form))
    as [m|] eqn:Hissue.
  { intros H. injection H as <- _. discriminate. }
  apply reset_issues_inv in Hissue as (email & otp & password & ->).
  cbn [reset_form rf_email rf_otp rf_password default from_option id].
  destruct (accounts_with_email email accounts) as [|[userId user] rest] eqn:Hacc.
  { intros H. injection H as <- _. discriminate. }
  destruct (otp_refused user otp now).
  { intros H. injection H as <- _. discriminate. }
  intros H _ Hemail. injection H as _ <-.
  unfold handlePasswordReset.
  destruct (first_issue (reset_issues is_email invalid_type_undefined too_big_6 form'))
    as [m|] eqn:Hissue'.
  { eexists. split; reflexivity. }
  apply reset_issues_inv in Hissue' as (email' & otp' & password' & ->).
  cbn [reset_form rf_email] in Hemail. injection Hemail as ->.
  cbn [reset_form rf_email rf_otp rf_password default from_option id].
  rewrite (accounts_with_email_first email userId (set_password password) accounts rest
             user (λ a, eq_refl) Hacc).
  unfold otp_refused. cbn [set_password acc_resetOtp].
  rewrite bool_decide_eq_false_2 by discriminate. cbn [negb orb].
  eexists. split; reflexivity.
Qed.

End PasswordResetProperties.


Lemma handlePasswordReset_single_use_witness :
  let accounts :=
    [("u1", mkAccount (Some "ann@example.com") (Some "secret1") (Some "123456") (Some 601000%Z))] in
  let form := reset_form "ann@example.com" "123456" "secret2" in
  ∃ st',
    handlePasswordReset (λ _, true) "Required" "String must contain at most 6 character(s)"
      3000 form (kv_update "u1" (set_password "secret2") accounts)
    = (st', kv_update "u1" (set_password "secret2") accounts)
    ∧ prs_isError st' = true.
Proof.
  intros accounts form.
  exact (handlePasswordReset_single_use (λ _, true) "Required"
           "String must contain at most 6 character(s)" 2000 3000 form form accounts _ _
           eq_refl eq_refl eq_refl).
Defined.
